(** * FormatTIFFgeneric: detection predicates, scan inference and detector
    stubs of the generic TIFF format classes, embedded from
    [src/FormatTIFFgeneric.py].

    The Python code is embedded shallowly.  Statement sequences live in a
    small reader/state/outcome monad: the reader holds what the process
    sees but never changes (the [tifffile] module global and the
    environment), the state holds what a call can change (open file
    handles, standard output), and an outcome is one of the three ways a
    Python block ends: falling through, [return], or a raised exception. *)

From Stdlib Require Import ZArith String Ascii List Bool Lia.
From Stdlib Require Import Floats.SpecFloat.
From stdpp Require Import base gmap strings list.

Open Scope Z_scope.
Open Scope string_scope.

(** ** Python exceptions, outcomes and the statement monad *)

Inductive exn : Type :=
| TiffFileError      (* tifffile.TiffFileError *)
| AssertionError
| KeyError
| IndexError
| AttributeError
| TypeError
| OverflowError
| OSError            (* FileNotFoundError, PermissionError, ... *)
| ValueError.

#[global] Instance exn_eq_dec : EqDecision exn.
Proof. solve_decision. Defined.

(** Result of a call: a value or an escaped exception. *)
Inductive result (A : Type) : Type :=
| Value (a : A)
| Error (e : exn).
Arguments Value {A} a.
Arguments Error {A} e.

(** Result of a block of statements inside a function returning [R]. *)
Inductive outcome (R A : Type) : Type :=
| Normal (a : A)
| Returned (r : R)
| Raised (e : exn).
Arguments Normal {R A} a.
Arguments Returned {R A} r.
Arguments Raised {R A} e.

(** The value of a tag, as the codec hands it out: text, raw bytes (a
    tag of a byte type, or text that would not decode), a number, a
    tuple of values, or a nested key/value structure.  A Python [dict]
    keeps insertion order, hence the association list. *)
#[warnings="-register-all"]
Inductive PyVal : Type :=
| PStr (s : string)
| PBytes (b : string)
| PNum (z : Z)
| PTuple (l : list PyVal)
| PDict (d : list (string * PyVal)).

Record TiffTag := { value : PyVal }.

Record TiffPage := {
  shape : list Z;            (* page.shape, a tuple of ints *)
  tags : gmap Z TiffTag      (* page.tags, keyed by tag code *)
}.

Record TiffPageSeries := { series_shape : list Z }.

(** What the codec finds in a container it managed to parse. *)
Record TiffContents := {
  pages : list TiffPage;
  series : list TiffPageSeries
}.

(** An open [tifffile.TiffFile]: the parsed container and the file handle
    it holds. *)
Record TiffFile := {
  fh : nat;
  contents : TiffContents
}.

(** The optional codec module.  Only its constructor is consumed: applied
    to a path it parses the container or raises. *)
Record tifffile_module := {
  parse : string -> result TiffContents
}.

(** What a call reads but cannot change. *)
Record World := {
  tifffile : option tifffile_module;   (* [None] after the failed import *)
  environ : gmap string string         (* os.environ *)
}.

(** What a call can change. *)
Record State := {
  next_fh : nat;               (* next fresh file handle *)
  open_fhs : gset nat;         (* handles currently open *)
  stdout : list string         (* lines printed so far *)
}.

Definition M (R A : Type) : Type := World -> State -> outcome R A * State.

Definition pass {R} : M R unit := fun _ st => (Normal tt, st).
Definition pure {R A} (a : A) : M R A := fun _ st => (Normal a, st).
Definition return_ {R A} (r : R) : M R A := fun _ st => (Returned r, st).
Definition raise {R A} (e : exn) : M R A := fun _ st => (Raised e, st).

Definition bind {R A B} (m : M R A) (k : A -> M R B) : M R B :=
  fun w st =>
    match m w st with
    | (Normal a, st') => k a w st'
    | (Returned r, st') => (Returned r, st')
    | (Raised e, st') => (Raised e, st')
    end.

Declare Scope py_scope.
Delimit Scope py_scope with py.
Bind Scope py_scope with M.
Notation "x <- m ;; k" := (bind m (fun x => k))
  (at level 100, m at next level, right associativity) : py_scope.
Notation "m ;; k" := (bind m (fun _ => k))
  (at level 100, right associativity) : py_scope.
Open Scope py_scope.

(** A function call: the body's [return] value, or the body's exception.
    All bodies here end in an explicit [return]. *)
Definition call {R} (body : M R R) (w : World) (st : State) : result R * State :=
  match body w st with
  | (Normal r, st') => (Value r, st')
  | (Returned r, st') => (Value r, st')
  | (Raised e, st') => (Error e, st')
  end.

(** [try: body except catches: handler] *)
Definition try_except {R A} (body : M R A) (catches : list exn) (handler : M R A)
  : M R A :=
  fun w st =>
    match body w st with
    | (Raised e, st') =>
        if bool_decide (e ∈ catches) then handler w st' else (Raised e, st')
    | other => other
    end.

(** [try: body finally: final].  The [finally] block runs however the
    body ends; when it falls through, the body's outcome stands. *)
Definition finally_ {R A} (body : M R A) (final : M R unit) : M R A :=
  fun w st =>
    let (o, st1) := body w st in
    match final w st1 with
    | (Normal _, st2) => (o, st2)
    | (Returned r, st2) => (Returned r, st2)
    | (Raised e, st2) => (Raised e, st2)
    end.

(** [try: body except catches: handler finally: final] *)
Definition try_except_finally {R A} (body : M R A) (catches : list exn)
    (handler : M R A) (final : M R unit) : M R A :=
  finally_ (try_except body catches handler) final.

Definition assert_ {R} (b : bool) : M R unit :=
  if b then pass else raise AssertionError.

Definition print {R} (line : string) : M R unit :=
  fun _ st =>
    (Normal tt,
     {| next_fh := next_fh st; open_fhs := open_fhs st;
        stdout := stdout st ++ [line] |}).

Definition os_getenv {R} (name : string) : M R (option string) :=
  fun w st => (Normal (environ w !! name), st).

(** A library call that gives a value or raises, run as a statement. *)
Definition lift {R A} (r : result A) : M R A :=
  match r with
  | Value a => pure a
  | Error e => raise e
  end.

(** [seq[i]] for a Python sequence and an index [i >= 0]. *)
Definition getitem {R A} (seq : list A) (i : nat) : M R A :=
  match seq !! i with
  | Some a => pure a
  | None => raise IndexError
  end.

(** [page.tags[code]] *)
Definition tags_getitem {R} (page : TiffPage) (code : Z) : M R TiffTag :=
  match tags page !! code with
  | Some t => pure t
  | None => raise KeyError
  end.

(** ** The consumed surface of the codec *)

(** [lib.TiffFile(image_file)]: parse, and on success hold a fresh handle. *)
Definition TiffFile_new {R} (lib : tifffile_module) (image_file : string)
  : M R TiffFile :=
  fun _ st =>
    match parse lib image_file with
    | Value c =>
        (Normal {| fh := next_fh st; contents := c |},
         {| next_fh := S (next_fh st);
            open_fhs := {[ next_fh st ]} ∪ open_fhs st;
            stdout := stdout st |})
    | Error e => (Raised e, st)
    end.

(** [tifffile.TiffFile(image_file)] through the module global: attribute
    access on [None] raises [AttributeError]. *)
Definition tifffile_TiffFile {R} (image_file : string) : M R TiffFile :=
  fun w st =>
    match tifffile w with
    | Some lib => TiffFile_new lib image_file w st
    | None => (Raised AttributeError, st)
    end.

(** The three reads in the [try] block of the base predicate.  The codec
    works [pages] and [series] out on demand, so on a damaged container
    a read can raise after the file was opened; each read gives a value
    or raises. *)
Record TiffReads := {
  len_pages : TiffFile -> result nat;            (* len(tif.pages) *)
  len_series : TiffFile -> result nat;           (* len(tif.series) *)
  pages_getitem0 : TiffFile -> result TiffPage   (* tif.pages[0] *)
}.

(** The reads of a container whose parsed contents are all in place. *)
Definition sound_reads : TiffReads :=
  {| len_pages := fun tif => Value (length (pages (contents tif)));
     len_series := fun tif => Value (length (series (contents tif)));
     pages_getitem0 := fun tif =>
       match pages (contents tif) !! 0%nat with
       | Some page => Value page
       | None => Error IndexError
       end |}.

(** Reading the module global [tifffile]. *)
Definition global_tifffile {R} : M R (option tifffile_module) :=
  fun w st => (Normal (tifffile w), st).

(** [tif.close()] *)
Definition close {R} (tif : TiffFile) : M R unit :=
  fun _ st =>
    (Normal tt,
     {| next_fh := next_fh st; open_fhs := open_fhs st ∖ {[ fh tif ]};
        stdout := stdout st |}).

(** [with ctor as tif: body].  The constructor runs first; once it has
    succeeded the handle is closed on the way out of the block, however
    the block ends, and the block's outcome stands. *)
Definition with_ {R A} (ctor : M R TiffFile) (body : TiffFile -> M R A) : M R A :=
  (tif <- ctor ;;
   finally_ (body tif) (close tif)).

(** ** Python strings *)

Definition is_digit (c : ascii) : bool :=
  ((48 <=? N_of_ascii c)%N && (N_of_ascii c <=? 57)%N)%bool.

Definition digit_value (c : ascii) : Z := Z.of_N (N_of_ascii c) - 48.

Definition newline : ascii := "010"%char.

(** [sep in s] for a one-character [sep] *)
Fixpoint occurs (sep : ascii) (s : string) : bool :=
  match s with
  | EmptyString => false
  | String c t => if Ascii.eqb c sep then true else occurs sep t
  end.

(** [s.split(sep)] for a one-character separator. *)
Fixpoint split (sep : ascii) (s : string) : list string :=
  match s with
  | EmptyString => [EmptyString]
  | String c t =>
      if Ascii.eqb c sep then EmptyString :: split sep t
      else match split sep t with
           | h :: r => String c h :: r
           | [] => [String c EmptyString]
           end
  end.

(** [l[-1]] and [l[0]] on the non-empty lists [split] returns. *)
Definition item_last (l : list string) : string := List.last l EmptyString.
Definition item_first (l : list string) : string := List.hd EmptyString l.

(** [needle in hay] for two strings: [needle] occurs at some offset. *)
Fixpoint str_contains (needle hay : string) : bool :=
  if String.prefix needle hay then true
  else match hay with
       | EmptyString => false
       | String _ t => str_contains needle t
       end.

(** Lookup in a [dict] with string keys. *)
Fixpoint dict_get {V} (k : string) (d : list (string * V)) : option V :=
  match d with
  | [] => None
  | (k', v) :: r => if String.eqb k k' then Some v else dict_get k r
  end.

(** [key == x] for the string [key]: only an equal string is equal. *)
Definition str_eq_val (key : string) (x : PyVal) : bool :=
  match x with
  | PStr s => String.eqb key s
  | _ => false
  end.

(** [key in v] for the string [key]: substring test on a string,
    membership on a tuple, key membership on a dict; bytes refuse a
    string operand and a number is no container, both with [TypeError]. *)
Definition py_in (key : string) (v : PyVal) : result bool :=
  match v with
  | PStr s => Value (str_contains key s)
  | PBytes _ => Error TypeError
  | PNum _ => Error TypeError
  | PTuple l => Value (existsb (str_eq_val key) l)
  | PDict d => Value (match dict_get key d with Some _ => true | None => false end)
  end.

(** [v[key]] for a string key: only a dict can be indexed by a string,
    and it raises on a missing key. *)
Definition py_getitem {R} (v : PyVal) (key : string) : M R PyVal :=
  match v with
  | PDict d => match dict_get key d with
               | Some x => pure x
               | None => raise KeyError
               end
  | _ => raise TypeError
  end.

(** [int(s)] on a string of ASCII digits, the only strings group 1 of
    the pattern below can hold: the number the digits denote.  The cap
    an interpreter may put on the number of digits is [int_limited]
    below. *)
Fixpoint int_digits (acc : Z) (s : string) : Z :=
  match s with
  | EmptyString => acc
  | String c t => int_digits (10 * acc + digit_value c) t
  end.
Definition int (s : string) : Z := int_digits 0 s.

(** The longest prefix of digits and what follows it. *)
Fixpoint span_digits (s : string) : string * string :=
  match s with
  | EmptyString => (EmptyString, EmptyString)
  | String c t =>
      if is_digit c then let (d, r) := span_digits t in (String c d, r)
      else (EmptyString, s)
  end.

(** [([0-9]+)$] tried at the start of [s].  The greedy run takes every
    digit; giving digits back never helps, since [$] cannot stand before
    a digit.  Without [re.MULTILINE], [$] stands at the end of the string
    or just before a line feed that ends the string. *)
Definition digits_to_end (s : string) : option string :=
  match span_digits s with
  | (String c d, EmptyString) => Some (String c d)
  | (String c d, String n EmptyString) =>
      if Ascii.eqb n newline then Some (String c d) else None
  | _ => None
  end.

(** [re.match(".*?([0-9]+)$", s)], giving group 1 of the match.  The lazy
    [.*?] first tries to consume nothing and grows one character at a
    time; without [re.DOTALL], [.] consumes anything but a line feed. *)
Fixpoint re_match_trailing_number (s : string) : option string :=
  match digits_to_end s with
  | Some g => Some g
  | None =>
      match s with
      | EmptyString => None
      | String c t =>
          if Ascii.eqb c newline then None else re_match_trailing_number t
      end
  end.

(** [int(s)] under the interpreter setting [sys.get_int_max_str_digits()]
    (4300 unless changed, 0 for no limit, never between 1 and 640): a
    digit string longer than 640 characters and longer than a non-zero
    limit is refused with [ValueError], leading zeros counted. *)
Definition over_digit_limit (max_str_digits : nat) (s : string) : bool :=
  ((0 <? max_str_digits)%nat && (640 <? String.length s)%nat
   && (max_str_digits <? String.length s)%nat)%bool.

Definition int_limited (max_str_digits : nat) (s : string) : result Z :=
  if over_digit_limit max_str_digits s then Error ValueError
  else Value (int s).

(** [m.group(1)] on the result of [re.match]: [None] has no [group]. *)
Definition group1 {R} (m : option string) : M R string :=
  match m with
  | Some g => pure g
  | None => raise AttributeError
  end.

(** ** Python floats: IEEE 754 binary64 *)

Definition prec : Z := 53.
Definition emax : Z := 1024.
Abbreviation float := spec_float.

(** The float nearest to the integer [z] (ties to even). *)
Definition float_of_Z (z : Z) : float := binary_normalize prec emax z 0 false.

(** The float literal [n / 10^k] written in decimal, e.g. [0.055]: the
    correctly rounded quotient of two exactly representable integers. *)
Definition float_lit (n : Z) (k : Z) : float :=
  SFdiv prec emax (float_of_Z n) (float_of_Z (10 ^ k)).

Definition is_finite (x : float) : bool :=
  match x with
  | S754_zero _ | S754_finite _ _ _ => true
  | _ => false
  end.

(** [float(z)] as the arithmetic operators apply it to an [int] operand:
    an integer that rounds beyond the largest float raises. *)
Definition float_of_int {R} (z : Z) : M R float :=
  if is_finite (float_of_Z z) then pure (float_of_Z z) else raise OverflowError.

Definition fmul (x y : float) : float := SFmul prec emax x y.
Definition fdiv (x y : float) : float := SFdiv prec emax x y.

(** [z * x] for an [int] and a [float] *)
Definition int_mul_float {R} (z : Z) (x : float) : M R float :=
  (fz <- float_of_int z ;; pure (fmul fz x)).

(** [(x * z) / 2] for a [float] and two small [int]s *)
Definition float_mul_int_div (x : float) (z d : Z) : float :=
  fdiv (fmul x (float_of_Z z)) (float_of_Z d).

(** ** What the format classes hand to the host framework *)

(** Arguments of [self._scan_factory.make_scan]. *)
Record ScanArgs := {
  image_range : Z * Z;
  exposure_times : float;
  oscillation : float * float;
  epochs : list Z;
  deg : bool
}.

(** Arguments of [self._detector_factory.simple]. *)
Record DetectorArgs := {
  sensor : string;
  distance : Z;
  beam_centre : list float;
  fast_direction : string;
  slow_direction : string;
  pixel_size : float * float;
  image_size : Z * Z;
  trusted_range : Z * Z
}.

(** [[(p * i) / 2 for p, i in zip(pixel_size, image_size)]] *)
Definition beam_centre_of (pixel_size : float * float) (image_size : Z * Z)
  : list float :=
  [float_mul_int_div (fst pixel_size) (fst image_size) 2;
   float_mul_int_div (snd pixel_size) (snd image_size) 2].

(** ** class FormatTIFFgeneric *)

Module FormatTIFFgeneric.

Definition unavailable_message : string :=
  "FormatTIFFgeneric is installed but the required library tifffile is not available".

Definition understand (image_file : string) : M bool bool :=
  (lib <- global_tifffile ;;
   (if lib is None
    then print unavailable_message ;; return_ false
    else pass) ;;
   tif <- try_except (tifffile_TiffFile image_file)
            [TiffFileError] (return_ false) ;;
   try_except_finally
     (assert_ (bool_decide (length (pages (contents tif)) = 1%nat)) ;;
      assert_ (bool_decide (length (series (contents tif)) = 1%nat)) ;;
      page <- getitem (pages (contents tif)) 0 ;;
      pass)
     [AssertionError; KeyError] (return_ false)
     (close tif) ;;
   return_ true).

(** The same body with the three reads of its [try] block handed in, so
    that a read may fail between opening and closing; with
    [sound_reads] it is [understand] (lemma [understand_reading_sound]). *)
Definition understand_reading (reads : TiffReads) (image_file : string)
  : M bool bool :=
  (lib <- global_tifffile ;;
   (if lib is None
    then print unavailable_message ;; return_ false
    else pass) ;;
   tif <- try_except (tifffile_TiffFile image_file)
            [TiffFileError] (return_ false) ;;
   try_except_finally
     (n <- lift (len_pages reads tif) ;;
      assert_ (bool_decide (n = 1%nat)) ;;
      m <- lift (len_series reads tif) ;;
      assert_ (bool_decide (m = 1%nat)) ;;
      page <- lift (pages_getitem0 reads tif) ;;
      pass)
     [AssertionError; KeyError] (return_ false)
     (close tif) ;;
   return_ true).

(** [os.path.split(p)[-1]] on a POSIX path: all that follows the last
    [/]. *)
Definition os_path_split_tail (p : string) : string :=
  item_last (split "/" p).

Definition _scan (image_file : string) : M ScanArgs ScanArgs :=
  let fname := os_path_split_tail image_file in
  let s := item_first (split "." (item_last (split "_" fname))) in
  (index <- try_except
              (g <- group1 (re_match_trailing_number s) ;;
               pure (int g))
              [AttributeError]
              (pure 1) ;;
   let exposure_times := float_lit 0 1 in           (* 0.0 *)
   let frame := index - 1 in
   start <- int_mul_float frame (float_lit 5 1) ;;   (* frame * 0.5 *)
   let oscillation := (start, float_lit 5 1) in
   let epochs := [0] in
   return_ {| image_range := (index, index);
              exposure_times := exposure_times;
              oscillation := oscillation;
              epochs := epochs;
              deg := true |}).

(** [_scan] under an interpreter that limits [int]: the same body, the
    conversion being [int_limited]; with no limit it is [_scan]. *)
Definition _scan_limited (max_str_digits : nat) (image_file : string)
  : M ScanArgs ScanArgs :=
  let fname := os_path_split_tail image_file in
  let s := item_first (split "." (item_last (split "_" fname))) in
  (index <- try_except
              (g <- group1 (re_match_trailing_number s) ;;
               lift (int_limited max_str_digits g))
              [AttributeError]
              (pure 1) ;;
   let exposure_times := float_lit 0 1 in
   let frame := index - 1 in
   start <- int_mul_float frame (float_lit 5 1) ;;
   let oscillation := (start, float_lit 5 1) in
   let epochs := [0] in
   return_ {| image_range := (index, index);
              exposure_times := exposure_times;
              oscillation := oscillation;
              epochs := epochs;
              deg := true |}).

(** The substring [s] of [_scan] and the index its [try] block leaves
    behind, named for the statements below (lemma [scan_call]). *)
Definition scan_stem (image_file : string) : string :=
  let fname := os_path_split_tail image_file in
  item_first (split "." (item_last (split "_" fname))).

Definition scan_index (image_file : string) : Z :=
  match re_match_trailing_number (scan_stem image_file) with
  | Some g => int g
  | None => 1
  end.

End FormatTIFFgeneric.

(** The shape test the specializations share: [page.shape != (h, w)]. *)
Definition shape_ne (page : TiffPage) (h w : Z) : bool :=
  negb (bool_decide (shape page = [h; w])).

(** ** class FormatTIFFgeneric_Merlin *)

Module FormatTIFFgeneric_Merlin.

Definition understand (image_file : string) : M bool bool :=
  (gate <- os_getenv "QD_MERLIN_TIFF" ;;
   (if gate is None then return_ false else pass) ;;
   with_ (tifffile_TiffFile image_file) (fun tif =>
     page <- getitem (pages (contents tif)) 0 ;;
     if shape_ne page 512 512 then return_ false else pass) ;;
   return_ true).

(** The local [dyn_range] of [_detector]. *)
Definition dyn_range : Z := 12.

Definition _detector : DetectorArgs :=
  let pixel_size := (float_lit 55 3, float_lit 55 3) in
  let image_size := (512, 512) in
  let trusted_range := (-1, 2 ^ dyn_range - 1) in
  let beam_centre := beam_centre_of pixel_size image_size in
  {| sensor := "PAD"; distance := 2440; beam_centre := beam_centre;
     fast_direction := "+x"; slow_direction := "-y";
     pixel_size := pixel_size; image_size := image_size;
     trusted_range := trusted_range |}.

End FormatTIFFgeneric_Merlin.

(** ** class FormatTIFFgeneric_ASI *)

Module FormatTIFFgeneric_ASI.

Definition understand (image_file : string) : M bool bool :=
  (with_ (tifffile_TiffFile image_file) (fun tif =>
     page <- getitem (pages (contents tif)) 0 ;;
     (if shape_ne page 516 516 then return_ false else pass) ;;
     ImageDescription <- tags_getitem page 270 ;;
     found <- lift (py_in "ImageCameraName: timepix" (value ImageDescription)) ;;
     if negb found then return_ false else pass) ;;
   return_ true).

(** The local [dyn_range] of [_detector]. *)
Definition dyn_range : Z := 20.

Definition _detector : DetectorArgs :=
  let pixel_size := (float_lit 55 3, float_lit 55 3) in
  let image_size := (516, 516) in
  let trusted_range := (-1, 2 ^ dyn_range - 1) in
  let beam_centre := beam_centre_of pixel_size image_size in
  {| sensor := "PAD"; distance := 2440; beam_centre := beam_centre;
     fast_direction := "+x"; slow_direction := "-y";
     pixel_size := pixel_size; image_size := image_size;
     trusted_range := trusted_range |}.

End FormatTIFFgeneric_ASI.

(** ** class FormatTIFFgeneric_FEI_Tecnai_G2 *)

Module FormatTIFFgeneric_FEI_Tecnai_G2.

Definition understand (image_file : string) : M bool bool :=
  (with_ (tifffile_TiffFile image_file) (fun tif =>
     page <- getitem (pages (contents tif)) 0 ;;
     (if shape_ne page 1024 1024 then return_ false else pass) ;;
     OlympusSIS <- tags_getitem page 33560 ;;
     cameraname <- py_getitem (value OlympusSIS) "cameraname" ;;
     found <- lift (py_in "Veleta" cameraname) ;;
     if negb found then return_ false else pass) ;;
   return_ true).

(** The local [dyn_range] of [_detector]. *)
Definition dyn_range : Z := 14.

Definition _detector : DetectorArgs :=
  let pixel_size := (float_lit 26 3, float_lit 26 3) in
  let image_size := (1024, 1024) in
  let trusted_range := (-1, 2 ^ dyn_range - 1) in
  let beam_centre := beam_centre_of pixel_size image_size in
  {| sensor := "PAD"; distance := 2440; beam_centre := beam_centre;
     fast_direction := "+x"; slow_direction := "-y";
     pixel_size := pixel_size; image_size := image_size;
     trusted_range := trusted_range |}.

End FormatTIFFgeneric_FEI_Tecnai_G2.

(** ** class FormatTIFFgeneric_Medipix *)

Module FormatTIFFgeneric_Medipix.

Definition understand (image_file : string) : M bool bool :=
  (with_ (tifffile_TiffFile image_file) (fun tif =>
     page <- getitem (pages (contents tif)) 0 ;;
     if shape_ne page 514 514 then return_ false else pass) ;;
   return_ true).

(** The local [dyn_range] of [_detector]. *)
Definition dyn_range : Z := 16.

Definition _detector : DetectorArgs :=
  let pixel_size := (float_lit 55 3, float_lit 55 3) in
  let image_size := (514, 514) in
  let trusted_range := (-1, 2 ^ dyn_range - 1) in
  let beam_centre := beam_centre_of pixel_size image_size in
  {| sensor := "PAD"; distance := 2440; beam_centre := beam_centre;
     fast_direction := "+x"; slow_direction := "-y";
     pixel_size := pixel_size; image_size := image_size;
     trusted_range := trusted_range |}.

End FormatTIFFgeneric_Medipix.

(** ** class FormatTIFF_UED *)

Module FormatTIFF_UED.

Definition understand (image_file : string) : M bool bool :=
  (with_ (tifffile_TiffFile image_file) (fun tif =>
     page <- getitem (pages (contents tif)) 0 ;;
     if shape_ne page 1300 1340 then return_ false else pass) ;;
   return_ true).

(** The local [dyn_range] of [_detector]. *)
Definition dyn_range : Z := 20.

Definition _detector : DetectorArgs :=
  let pixel_size := (float_lit 60 3, float_lit 60 3) in
  let image_size := (1300, 1340) in
  let trusted_range := (-1, 2 ^ dyn_range - 1) in
  let beam_centre := beam_centre_of pixel_size image_size in
  {| sensor := "PAD"; distance := 2440; beam_centre := beam_centre;
     fast_direction := "+x"; slow_direction := "-y";
     pixel_size := pixel_size; image_size := image_size;
     trusted_range := trusted_range |}.

End FormatTIFF_UED.

(** ** class FormatTIFF_UED_BNL *)

Module FormatTIFF_UED_BNL.

Definition understand (image_file : string) : M bool bool :=
  (gate <- os_getenv "UED_BNL_TIFF" ;;
   (if gate is None then return_ false else pass) ;;
   with_ (tifffile_TiffFile image_file) (fun tif =>
     page <- getitem (pages (contents tif)) 0 ;;
     if shape_ne page 512 512 then return_ false else pass) ;;
   return_ true).

(** The local [dyn_range] of [_detector]. *)
Definition dyn_range : Z := 20.

Definition _detector : DetectorArgs :=
  let pixel_size := (float_lit 16 3, float_lit 16 3) in
  let image_size := (512, 512) in
  let trusted_range := (-1, 2 ^ dyn_range - 1) in
  let beam_centre := beam_centre_of pixel_size image_size in
  {| sensor := "CCD"; distance := 3480; beam_centre := beam_centre;
     fast_direction := "+x"; slow_direction := "-y";
     pixel_size := pixel_size; image_size := image_size;
     trusted_range := trusted_range |}.

End FormatTIFF_UED_BNL.

(** ** The six specializations, by name *)

Inductive profile : Type :=
| Merlin | ASI | FEI_Tecnai_G2 | Medipix | UED | UED_BNL.

Definition understand_of (p : profile) : string -> M bool bool :=
  match p with
  | Merlin => FormatTIFFgeneric_Merlin.understand
  | ASI => FormatTIFFgeneric_ASI.understand
  | FEI_Tecnai_G2 => FormatTIFFgeneric_FEI_Tecnai_G2.understand
  | Medipix => FormatTIFFgeneric_Medipix.understand
  | UED => FormatTIFF_UED.understand
  | UED_BNL => FormatTIFF_UED_BNL.understand
  end.

Definition detector_of (p : profile) : DetectorArgs :=
  match p with
  | Merlin => FormatTIFFgeneric_Merlin._detector
  | ASI => FormatTIFFgeneric_ASI._detector
  | FEI_Tecnai_G2 => FormatTIFFgeneric_FEI_Tecnai_G2._detector
  | Medipix => FormatTIFFgeneric_Medipix._detector
  | UED => FormatTIFF_UED._detector
  | UED_BNL => FormatTIFF_UED_BNL._detector
  end.

Definition dyn_range_of (p : profile) : Z :=
  match p with
  | Merlin => FormatTIFFgeneric_Merlin.dyn_range
  | ASI => FormatTIFFgeneric_ASI.dyn_range
  | FEI_Tecnai_G2 => FormatTIFFgeneric_FEI_Tecnai_G2.dyn_range
  | Medipix => FormatTIFFgeneric_Medipix.dyn_range
  | UED => FormatTIFF_UED.dyn_range
  | UED_BNL => FormatTIFF_UED_BNL.dyn_range
  end.

(** A predicate called from outside: the boolean or the escaped
    exception. *)
Definition run_base (w : World) (st : State) (image_file : string) : result bool :=
  fst (call (FormatTIFFgeneric.understand image_file) w st).

Definition run_understand (p : profile) (w : World) (st : State)
    (image_file : string) : result bool :=
  fst (call (understand_of p image_file) w st).

(** Every open handle was handed out earlier. *)
Definition handles_fresh (st : State) : Prop :=
  forall h, h ∈ open_fhs st -> (h < next_fh st)%nat.

(** ** The verdict of each specialization, read off its branches

    A summary of the six bodies, proved below to be what they compute:
    the gate that lets the body past its first line, and the verdict on
    the first page once the container is open. *)

Definition gate_of (p : profile) : option string :=
  match p with
  | Merlin => Some "QD_MERLIN_TIFF"
  | UED_BNL => Some "UED_BNL_TIFF"
  | _ => None
  end.

Definition gate_open (p : profile) (w : World) : bool :=
  match gate_of p with
  | Some name => bool_decide (is_Some (environ w !! name))
  | None => true
  end.

Definition required_shape (p : profile) : list Z :=
  match p with
  | Merlin => [512; 512]
  | ASI => [516; 516]
  | FEI_Tecnai_G2 => [1024; 1024]
  | Medipix => [514; 514]
  | UED => [1300; 1340]
  | UED_BNL => [512; 512]
  end.

Definition tag_verdict (p : profile) (page : TiffPage) : result bool :=
  match p with
  | ASI =>
      match tags page !! 270 with
      | None => Error KeyError
      | Some t => py_in "ImageCameraName: timepix" (value t)
      end
  | FEI_Tecnai_G2 =>
      match tags page !! 33560 with
      | None => Error KeyError
      | Some t =>
          match value t with
          | PDict d =>
              match dict_get "cameraname" d with
              | None => Error KeyError
              | Some v => py_in "Veleta" v
              end
          | _ => Error TypeError
          end
      end
  | _ => Value true
  end.

Definition first_page_verdict (p : profile) (page : TiffPage) : result bool :=
  if bool_decide (shape page = required_shape p) then tag_verdict p page
  else Value false.

Definition verdict (p : profile) (w : World) (image_file : string) : result bool :=
  if gate_open p w then
    match tifffile w with
    | None => Error AttributeError
    | Some lib =>
        match parse lib image_file with
        | Error e => Error e
        | Value c =>
            match pages c with
            | [] => Error IndexError
            | page :: _ => first_page_verdict p page
            end
        end
    end
  else Value false.

(** ** The filename rule in the words of the specification

    Kept apart from the code's own definitions above, to be compared with
    them. *)

Module Spec.

Fixpoint all_digits (s : string) : bool :=
  match s with
  | EmptyString => true
  | String c t => is_digit c && all_digits t
  end.

Fixpoint has_digit (s : string) : bool :=
  match s with
  | EmptyString => false
  | String c t => is_digit c || has_digit t
  end.

(** The trailing run of decimal digits: the longest suffix made of
    digits only (empty when the string does not end in a digit). *)
Fixpoint trailing_digits (s : string) : string :=
  match s with
  | EmptyString => EmptyString
  | String c t => if all_digits s then s else trailing_digits t
  end.

(** The substring after the final [sep] (all of [s] when there is none). *)
Fixpoint after_last (sep : ascii) (s : string) : string :=
  match s with
  | EmptyString => EmptyString
  | String c t =>
      if occurs sep t then after_last sep t
      else if Ascii.eqb c sep then t else s
  end.

(** The substring before the first [sep] (all of [s] when there is none). *)
Fixpoint before_first (sep : ascii) (s : string) : string :=
  match s with
  | EmptyString => EmptyString
  | String c t => if Ascii.eqb c sep then EmptyString
                  else String c (before_first sep t)
  end.

(** The file name of a path, and the substring the index is read from:
    what follows the final underscore of the name, with the extension
    (everything from its first dot) stripped. *)
Definition file_name (path : string) : string := after_last "/" path.

Definition stem (path : string) : string :=
  before_first "." (after_last "_" (file_name path)).

(** The index: the trailing run of digits read as a decimal number, 1
    when there is no such run. *)
Definition index (path : string) : Z :=
  match trailing_digits (stem path) with
  | EmptyString => 1
  | d => int d
  end.

End Spec.

(** ** Concrete files and worlds used in the examples *)

Definition st0 : State := {| next_fh := 0; open_fhs := ∅; stdout := [] |}.

Definition page_of (h w : Z) (t : gmap Z TiffTag) : TiffPage :=
  {| shape := [h; w]; tags := t |}.

Definition single_page (p : TiffPage) : TiffContents :=
  {| pages := [p]; series := [ {| series_shape := shape p |} ] |}.

(** A two-page stack of 514x514 frames, held as one series. *)
Definition stack_514 : TiffContents :=
  {| pages := [page_of 514 514 ∅; page_of 514 514 ∅];
     series := [ {| series_shape := [2; 514; 514] |} ] |}.

Definition timepix_tags : gmap Z TiffTag :=
  {[ 270 := {| value := PStr "ImageCameraName: timepix; Mode: 12bit" |} ]}.

Definition example_codec : tifffile_module :=
  {| parse := fun path =>
       if String.eqb path "merlin_001.tif" then Value (single_page (page_of 512 512 ∅))
       else if String.eqb path "medipix_001.tif" then Value (single_page (page_of 514 514 ∅))
       else if String.eqb path "asi_001.tif" then Value (single_page (page_of 516 516 timepix_tags))
       else if String.eqb path "stack.tif" then Value stack_514
       else if String.eqb path "notes.txt" then Error TiffFileError
       else Error OSError |}.

Definition example_world : World :=
  {| tifffile := Some example_codec; environ := {[ "QD_MERLIN_TIFF" := "1" ]} |}.

Definition no_codec_world : World := {| tifffile := None; environ := ∅ |}.

Definition line_feed : string := String newline EmptyString.

(** An ASI-sized frame whose description tag comes back as bytes. *)
Definition bytes_description_tags : gmap Z TiffTag :=
  {[ 270 := {| value := PBytes "ImageCameraName: medipix" |} ]}.

Definition bytes_codec : tifffile_module :=
  {| parse := fun path =>
       if String.eqb path "asi_bytes.tif"
       then Value (single_page (page_of 516 516 bytes_description_tags))
       else Error TiffFileError |}.

Definition bytes_world : World :=
  {| tifffile := Some bytes_codec; environ := ∅ |}.

(** What the [try] block of the base predicate comes to, read off its
    statements in order: the first read that raises, or a failed
    assertion, or nothing. *)
Definition try_block_outcome (reads : TiffReads) (tif : TiffFile) : result unit :=
  match len_pages reads tif with
  | Error e => Error e
  | Value n =>
      if bool_decide (n = 1%nat) then
        match len_series reads tif with
        | Error e => Error e
        | Value m =>
            if bool_decide (m = 1%nat) then
              match pages_getitem0 reads tif with
              | Error e => Error e
              | Value _ => Value tt
              end
            else Error AssertionError
        end
      else Error AssertionError
  end.

(** A container that opens, but whose series cannot be worked out. *)
Definition damaged_reads : TiffReads :=
  {| len_pages := fun _ => Value 1%nat;
     len_series := fun _ => Error ValueError;
     pages_getitem0 := fun tif => pages_getitem0 sound_reads tif |}.

(** A run of [n] copies of one character. *)
Fixpoint repeat_char (c : ascii) (n : nat) : string :=
  match n with
  | O => EmptyString
  | S k => String c (repeat_char c k)
  end.

(** ** Further vocabulary for the statements below *)

(** The last character of [s] is a decimal digit. *)
Fixpoint ends_in_digit (s : string) : bool :=
  match s with
  | EmptyString => false
  | String c EmptyString => is_digit c
  | String _ t => ends_in_digit t
  end.

(** [image_size] of a detector stub as a shape, in the order written. *)
Definition image_size_shape (d : DetectorArgs) : list Z :=
  [fst (image_size d); snd (image_size d)].

(** A Tecnai frame: 1024x1024 with the Olympus SIS private tag. *)
Definition veleta_tags : gmap Z TiffTag :=
  {[ 33560 := {| value := PDict [("magnification", PStr "5000");
                                 ("cameraname", PStr "Veleta 2k")] |} ]}.

Definition bnl_codec : tifffile_module :=
  {| parse := fun path =>
       if String.eqb path "bnl_0001.tif"
       then Value (single_page (page_of 512 512 ∅))
       else if String.eqb path "tecnai_001.tif"
       then Value (single_page (page_of 1024 1024 veleta_tags))
       else if String.eqb path "ued_001.tif"
       then Value (single_page (page_of 1300 1340 ∅))
       else Error TiffFileError |}.

(** Both gates set, as on a machine that handles Merlin and BNL data. *)
Definition both_gates_world : World :=
  {| tifffile := Some bnl_codec;
     environ := {[ "QD_MERLIN_TIFF" := "1"; "UED_BNL_TIFF" := "" ]} |}.

(** * Properties *)

(** ** Strings: the code's splitting against the words of the rule *)

Section StringFacts.

Variable sep : ascii.

Lemma split_nonempty (s : string) : split sep s <> [].
Proof.
  destruct s as [|c t]; simpl; [discriminate|].
  destruct (Ascii.eqb c sep); [discriminate|].
  destruct (split sep t); discriminate.
Qed.

Lemma split_no_sep (s : string) : occurs sep s = false -> split sep s = [s].
Proof.
  induction s as [|c t IH]; simpl; [reflexivity|].
  destruct (Ascii.eqb c sep); [discriminate|].
  intros H. rewrite (IH H). reflexivity.
Qed.

Lemma split_sep (s : string) :
  occurs sep s = true -> exists h a r, split sep s = h :: a :: r.
Proof.
  induction s as [|c t IH]; simpl; [discriminate|].
  destruct (Ascii.eqb c sep).
  - intros _. destruct (split sep t) as [|a r] eqn:E.
    + now apply split_nonempty in E.
    + eauto.
  - intros H. destruct (IH H) as (h & a & r & ->). eauto.
Qed.

Lemma after_last_no_sep (s : string) :
  occurs sep s = false -> Spec.after_last sep s = s.
Proof.
  destruct s as [|c t]; simpl; [reflexivity|].
  destruct (Ascii.eqb c sep); [discriminate|].
  intros ->. reflexivity.
Qed.

(** [split(sep)[-1]] is the substring after the final separator. *)
Lemma item_last_split (s : string) :
  item_last (split sep s) = Spec.after_last sep s.
Proof.
  unfold item_last.
  induction s as [|c t IH]; simpl; [reflexivity|].
  destruct (occurs sep t) eqn:O.
  - destruct (split_sep t O) as (h & a & r & E).
    rewrite E in *. destruct (Ascii.eqb c sep); exact IH.
  - rewrite (split_no_sep t O). destruct (Ascii.eqb c sep); reflexivity.
Qed.

(** [split(sep)[0]] is the substring before the first separator. *)
Lemma item_first_split (s : string) :
  item_first (split sep s) = Spec.before_first sep s.
Proof.
  unfold item_first.
  induction s as [|c t IH]; simpl; [reflexivity|].
  destruct (Ascii.eqb c sep); [reflexivity|].
  destruct (split sep t) as [|h r] eqn:E.
  - now apply split_nonempty in E.
  - simpl in *. now rewrite IH.
Qed.

Lemma occurs_app (a b : string) :
  occurs sep (a +:+ b) = occurs sep a || occurs sep b.
Proof.
  induction a as [|c t IH]; simpl; [reflexivity|].
  destruct (Ascii.eqb c sep); [reflexivity | exact IH].
Qed.

(** The two readings of "after the final separator" agree. *)
Lemma after_last_app (pre x : string) :
  occurs sep x = false ->
  Spec.after_last sep (pre +:+ String sep x) = x.
Proof.
  intros Hx. induction pre as [|c t IH]; simpl.
  - rewrite Hx, Ascii.eqb_refl. reflexivity.
  - rewrite occurs_app. simpl. rewrite Ascii.eqb_refl, orb_true_r. exact IH.
Qed.

Lemma before_first_app (x rest : string) :
  occurs sep x = false ->
  Spec.before_first sep (x +:+ String sep rest) = x.
Proof.
  induction x as [|c t IH]; simpl.
  - now rewrite Ascii.eqb_refl.
  - destruct (Ascii.eqb c sep); [discriminate|].
    intros H. now rewrite (IH H).
Qed.

Lemma before_first_no_sep (s : string) :
  occurs sep s = false -> Spec.before_first sep s = s.
Proof.
  induction s as [|c t IH]; simpl; [reflexivity|].
  destruct (Ascii.eqb c sep); [discriminate|].
  intros H. now rewrite (IH H).
Qed.

End StringFacts.

(** ** Running the predicates *)

Ltac py_unfold :=
  unfold run_base, run_understand, call, understand_of,
    FormatTIFFgeneric.understand, FormatTIFFgeneric_Merlin.understand,
    FormatTIFFgeneric_ASI.understand, FormatTIFFgeneric_FEI_Tecnai_G2.understand,
    FormatTIFFgeneric_Medipix.understand, FormatTIFF_UED.understand,
    FormatTIFF_UED_BNL.understand,
    with_, try_except_finally, finally_, try_except, bind,
    tifffile_TiffFile, TiffFile_new, global_tifffile, os_getenv,
    getitem, tags_getitem, py_getitem, lift, close, print, assert_,
    pass, pure, return_, raise in *.

(** The base predicate, path by path. *)
Lemma base_no_codec (w : World) (st : State) (image_file : string) :
  tifffile w = None ->
  call (FormatTIFFgeneric.understand image_file) w st =
  (Value false,
   {| next_fh := next_fh st; open_fhs := open_fhs st;
      stdout := stdout st ++ [FormatTIFFgeneric.unavailable_message] |}).
Proof. intros H. py_unfold. rewrite H. reflexivity. Qed.

Lemma base_open_error (w : World) (st : State) (image_file : string)
    (lib : tifffile_module) (e : exn) :
  tifffile w = Some lib -> parse lib image_file = Error e ->
  call (FormatTIFFgeneric.understand image_file) w st =
  (if bool_decide (e = TiffFileError) then Value false else Error e, st).
Proof.
  intros H1 H2. py_unfold. rewrite H1; simpl. rewrite H2; simpl.
  destruct e; reflexivity.
Qed.

Lemma base_opened (w : World) (st : State) (image_file : string)
    (lib : tifffile_module) (c : TiffContents) :
  tifffile w = Some lib -> parse lib image_file = Value c ->
  call (FormatTIFFgeneric.understand image_file) w st =
  (Value (bool_decide (length (pages c) = 1%nat)
          && bool_decide (length (series c) = 1%nat)),
   {| next_fh := S (next_fh st);
      open_fhs := ({[ next_fh st ]} ∪ open_fhs st) ∖ {[ next_fh st ]};
      stdout := stdout st |}).
Proof.
  intros H1 H2. py_unfold. rewrite H1; simpl. rewrite H2; simpl.
  destruct c as [ps ss]; simpl.
  destruct ps as [|p [|p' ps]]; simpl; try reflexivity.
  destruct ss as [|s [|s' ss]]; simpl; reflexivity.
Qed.

Lemma st0_fresh : handles_fresh st0.
Proof. intros h Hh. now apply not_elem_of_empty in Hh. Qed.

(** ** The base detection predicate *)

(** C1: when the container parses, the base predicate returns False as
    soon as the page count or the series count differs from 1, and it
    returns True exactly when both counts are 1; it never returns True
    on a file that did not parse to such a container. *)
Theorem base_understand_counts (w : World) (st : State) (image_file : string) :
  (forall lib c,
     tifffile w = Some lib ->
     parse lib image_file = Value c ->
     (length (pages c) <> 1%nat \/ length (series c) <> 1%nat ->
      run_base w st image_file = Value false)
     /\ (run_base w st image_file = Value true <->
         length (pages c) = 1%nat /\ length (series c) = 1%nat))
  /\ (run_base w st image_file = Value true ->
      exists lib c,
        tifffile w = Some lib /\ parse lib image_file = Value c
        /\ length (pages c) = 1%nat /\ length (series c) = 1%nat).
Proof.
  assert (forall lib c,
            tifffile w = Some lib -> parse lib image_file = Value c ->
            run_base w st image_file = Value true ->
            length (pages c) = 1%nat /\ length (series c) = 1%nat) as Honly.
  { intros lib c Hlib Hparse. unfold run_base.
    rewrite (base_opened w st image_file lib c Hlib Hparse). simpl.
    intros [= H]. apply andb_true_iff in H as [H1 H2].
    split; eapply bool_decide_eq_true_1; eassumption. }
  split.
  - intros lib c Hlib Hparse. split; [|split; [now apply (Honly lib c)|]].
    + intros Hne. unfold run_base.
      rewrite (base_opened w st image_file lib c Hlib Hparse). simpl.
      destruct Hne as [H | H]; rewrite (bool_decide_eq_false_2 _ H);
        [reflexivity | now rewrite andb_false_r].
    + intros [H1 H2]. unfold run_base.
      rewrite (base_opened w st image_file lib c Hlib Hparse). simpl.
      now rewrite !bool_decide_eq_true_2.
  - intros Htrue. unfold run_base in *.
    destruct (tifffile w) as [lib|] eqn:Hlib.
    + destruct (parse lib image_file) as [c|e] eqn:Hparse.
      * exists lib, c. split; [reflexivity|]. split; [exact Hparse|].
        exact (Honly lib c eq_refl Hparse Htrue).
      * rewrite (base_open_error w st image_file lib e Hlib Hparse) in Htrue.
        simpl in Htrue. now case_bool_decide.
    + now rewrite (base_no_codec w st image_file Hlib) in Htrue.
Qed.

Lemma base_understand_counts_witness :
  run_base example_world st0 "stack.tif" = Value false
  /\ run_base example_world st0 "merlin_001.tif" = Value true.
Proof.
  destruct (base_understand_counts example_world st0 "stack.tif") as [H _].
  destruct (base_understand_counts example_world st0 "merlin_001.tif") as [H' _].
  split.
  - apply (H example_codec stack_514 eq_refl eq_refl).
    left. simpl. discriminate.
  - apply (H' example_codec (single_page (page_of 512 512 ∅)) eq_refl eq_refl).
    split; reflexivity.
Defined.

(** C2: without the codec the base predicate prints its diagnostic and
    returns False; when opening raises the codec's parse error it returns
    False as well.  Both are plain returns: no exception leaves the call,
    and nothing else changes. *)
Theorem base_understand_unavailable_or_unparsable
    (w : World) (st : State) (image_file : string) :
  (tifffile w = None ->
   call (FormatTIFFgeneric.understand image_file) w st =
   (Value false,
    {| next_fh := next_fh st; open_fhs := open_fhs st;
       stdout := stdout st ++ [FormatTIFFgeneric.unavailable_message] |}))
  /\ (forall lib, tifffile w = Some lib ->
      parse lib image_file = Error TiffFileError ->
      call (FormatTIFFgeneric.understand image_file) w st = (Value false, st)).
Proof.
  split.
  - apply base_no_codec.
  - intros lib Hlib Hparse.
    now rewrite (base_open_error w st image_file lib _ Hlib Hparse).
Qed.

Lemma base_understand_unavailable_or_unparsable_witness :
  fst (call (FormatTIFFgeneric.understand "merlin_001.tif") no_codec_world st0)
    = Value false
  /\ stdout (snd (call (FormatTIFFgeneric.understand "merlin_001.tif")
                    no_codec_world st0))
     = [FormatTIFFgeneric.unavailable_message]
  /\ call (FormatTIFFgeneric.understand "notes.txt") example_world st0
     = (Value false, st0).
Proof.
  pose proof (base_understand_unavailable_or_unparsable
                no_codec_world st0 "merlin_001.tif") as [H _].
  pose proof (base_understand_unavailable_or_unparsable
                example_world st0 "notes.txt") as [_ H'].
  rewrite (H eq_refl). simpl.
  split; [reflexivity | split; [reflexivity |]].
  exact (H' example_codec eq_refl eq_refl).
Defined.

Lemma close_fresh (X : gset nat) (h : nat) :
  h ∉ X -> ({[ h ]} ∪ X) ∖ {[ h ]} = X.
Proof.
  intros Hh. apply set_eq. intros x.
  rewrite elem_of_difference, elem_of_union, elem_of_singleton.
  split.
  - intros [[-> | Hx] Hne]; [contradiction | assumption].
  - intros Hx. split; [now right | now intros ->].
Qed.

(** The generalised body, path by path. *)
Lemma base_reading_opened (reads : TiffReads) (w : World) (st : State)
    (image_file : string) (lib : tifffile_module) (c : TiffContents) :
  tifffile w = Some lib -> parse lib image_file = Value c ->
  call (FormatTIFFgeneric.understand_reading reads image_file) w st =
  (match try_block_outcome reads {| fh := next_fh st; contents := c |} with
   | Value _ => Value true
   | Error e =>
       if bool_decide (e ∈ [AssertionError; KeyError]) then Value false
       else Error e
   end,
   {| next_fh := S (next_fh st);
      open_fhs := ({[ next_fh st ]} ∪ open_fhs st) ∖ {[ next_fh st ]};
      stdout := stdout st |}).
Proof.
  intros H1 H2. unfold FormatTIFFgeneric.understand_reading, try_block_outcome.
  py_unfold. rewrite H1; simpl. rewrite H2; simpl.
  destruct (len_pages reads _) as [n|e]; simpl; [|destruct e; reflexivity].
  destruct (bool_decide (n = 1%nat)); simpl; [|reflexivity].
  destruct (len_series reads _) as [m|e]; simpl; [|destruct e; reflexivity].
  destruct (bool_decide (m = 1%nat)); simpl; [|reflexivity].
  destruct (pages_getitem0 reads _) as [page|e]; simpl;
    [reflexivity | destruct e; reflexivity].
Qed.

Lemma base_reading_not_opened (reads : TiffReads) (w : World) (st : State)
    (image_file : string) :
  (forall lib c, tifffile w = Some lib -> parse lib image_file <> Value c) ->
  call (FormatTIFFgeneric.understand_reading reads image_file) w st
  = call (FormatTIFFgeneric.understand image_file) w st.
Proof.
  intros Hno. unfold FormatTIFFgeneric.understand_reading. py_unfold.
  destruct (tifffile w) as [lib|] eqn:Hlib; simpl; [|reflexivity].
  destruct (parse lib image_file) as [c|e] eqn:Hparse; simpl.
  - now destruct (Hno lib c eq_refl).
  - destruct e; reflexivity.
Qed.

(** With sound reads the generalised body is the base predicate. *)
Lemma understand_reading_sound (w : World) (st : State) (image_file : string) :
  call (FormatTIFFgeneric.understand_reading sound_reads image_file) w st
  = call (FormatTIFFgeneric.understand image_file) w st.
Proof.
  destruct (tifffile w) as [lib|] eqn:Hlib.
  - destruct (parse lib image_file) as [c|e] eqn:Hparse.
    + rewrite (base_reading_opened sound_reads w st image_file lib c Hlib Hparse),
        (base_opened w st image_file lib c Hlib Hparse).
      unfold try_block_outcome; simpl.
      destruct c as [[|p [|p' ps]] [|s [|s' ss]]]; reflexivity.
    + apply base_reading_not_opened. intros lib' c Hl.
      rewrite Hlib in Hl. injection Hl as <-. congruence.
  - apply base_reading_not_opened. intros lib' c Hl. congruence.
Qed.

(** C8: whatever the base predicate does -- return True, return False or
    let an exception out -- the handles open after the call are those
    that were open before it.  When the container parsed, a handle was
    taken for it, and that handle is closed again by the time the call
    ends.  This holds whatever the reads between opening and closing do:
    when one of them raises, an [AssertionError] or [KeyError] is turned
    into False and any other exception leaves the call, and in both
    cases the handle has been closed first. *)
Theorem base_understand_closes_handle
    (reads : TiffReads) (w : World) (st : State) (image_file : string) :
  handles_fresh st ->
  (open_fhs (snd (call (FormatTIFFgeneric.understand image_file) w st))
   = open_fhs st
   /\ (forall lib c,
       tifffile w = Some lib -> parse lib image_file = Value c ->
       next_fh (snd (call (FormatTIFFgeneric.understand image_file) w st))
       = S (next_fh st)
       /\ next_fh st
          ∉ open_fhs (snd (call (FormatTIFFgeneric.understand image_file) w st))))
  /\ call (FormatTIFFgeneric.understand_reading sound_reads image_file) w st
     = call (FormatTIFFgeneric.understand image_file) w st
  /\ open_fhs (snd (call (FormatTIFFgeneric.understand_reading reads image_file)
                      w st))
     = open_fhs st
  /\ (forall lib c,
      tifffile w = Some lib -> parse lib image_file = Value c ->
      next_fh (snd (call (FormatTIFFgeneric.understand_reading reads image_file)
                      w st)) = S (next_fh st)
      /\ (next_fh st
          ∉ open_fhs (snd (call (FormatTIFFgeneric.understand_reading reads
                                   image_file) w st)))
      /\ fst (call (FormatTIFFgeneric.understand_reading reads image_file) w st)
         = match try_block_outcome reads
                   {| fh := next_fh st; contents := c |} with
           | Value _ => Value true
           | Error e =>
               if bool_decide (e ∈ [AssertionError; KeyError]) then Value false
               else Error e
           end).
Proof.
  intros Hfresh.
  assert (next_fh st ∉ open_fhs st) as Hnot.
  { intros Hin. apply Hfresh in Hin. lia. }
  assert (open_fhs (snd (call (FormatTIFFgeneric.understand image_file) w st))
          = open_fhs st) as Hbase.
  { destruct (tifffile w) as [lib|] eqn:Hlib.
    - destruct (parse lib image_file) as [c|e] eqn:Hparse.
      + rewrite (base_opened w st image_file lib c Hlib Hparse). simpl.
        now apply close_fresh.
      + now rewrite (base_open_error w st image_file lib e Hlib Hparse).
    - now rewrite (base_no_codec w st image_file Hlib). }
  split; [split; [exact Hbase|]|split; [|split]].
  - intros lib c Hlib Hparse.
    rewrite (base_opened w st image_file lib c Hlib Hparse). simpl.
    split; [reflexivity|]. now rewrite close_fresh.
  - apply understand_reading_sound.
  - destruct (tifffile w) as [lib|] eqn:Hlib.
    + destruct (parse lib image_file) as [c|e] eqn:Hparse.
      * rewrite (base_reading_opened reads w st image_file lib c Hlib Hparse).
        simpl. now apply close_fresh.
      * rewrite base_reading_not_opened; [exact Hbase|].
        intros lib' c Hl. rewrite Hlib in Hl. injection Hl as <-. congruence.
    + rewrite base_reading_not_opened; [exact Hbase|].
      intros lib' c Hl. congruence.
  - intros lib c Hlib Hparse.
    rewrite (base_reading_opened reads w st image_file lib c Hlib Hparse). simpl.
    split; [reflexivity|]. split; [now rewrite close_fresh | reflexivity].
Qed.

Lemma base_understand_closes_handle_witness :
  open_fhs (snd (call (FormatTIFFgeneric.understand "stack.tif")
                   example_world st0)) = open_fhs st0
  /\ next_fh (snd (call (FormatTIFFgeneric.understand "stack.tif")
                     example_world st0)) = 1%nat
  /\ fst (call (FormatTIFFgeneric.understand_reading damaged_reads
                  "merlin_001.tif") example_world st0) = Error ValueError
  /\ open_fhs (snd (call (FormatTIFFgeneric.understand_reading damaged_reads
                            "merlin_001.tif") example_world st0))
     = open_fhs st0.
Proof.
  destruct (base_understand_closes_handle damaged_reads example_world st0
              "stack.tif" st0_fresh) as ((Hsame & Hopened) & _).
  destruct (base_understand_closes_handle damaged_reads example_world st0
              "merlin_001.tif" st0_fresh) as (_ & _ & Hclosed & Hraised).
  split; [exact Hsame|].
  split; [exact (proj1 (Hopened example_codec stack_514 eq_refl eq_refl))|].
  split; [|exact Hclosed].
  destruct (Hraised example_codec (single_page (page_of 512 512 ∅))
              eq_refl eq_refl) as (_ & _ & Hres).
  rewrite Hres. reflexivity.
Defined.

(** ** The specializations *)

(** The six bodies compute the verdict read off their branches. *)
Lemma understand_verdict (p : profile) (w : World) (st : State)
    (image_file : string) :
  run_understand p w st image_file = verdict p w image_file.
Proof.
  unfold verdict, gate_open, first_page_verdict.
  destruct p; py_unfold; simpl.
  all: try (destruct (environ w !! _) as [v|]; simpl; [|reflexivity]).
  all: destruct (tifffile w) as [lib|]; simpl; [|reflexivity].
  all: destruct (parse lib image_file) as [c|e]; simpl; [|reflexivity].
  all: destruct (pages c) as [|page ps]; simpl; [reflexivity|].
  all: unfold shape_ne; destruct (bool_decide (shape page = _)); simpl;
    try reflexivity.
  - destruct (tags page !! 270) as [t|]; simpl; [|reflexivity].
    destruct (py_in _ _) as [[]|e]; reflexivity.
  - destruct (tags page !! 33560) as [t|]; simpl; [|reflexivity].
    destruct (value t) as [s|b|z|l|d]; simpl; try reflexivity.
    destruct (dict_get _ d) as [v|]; simpl; [|reflexivity].
    destruct (py_in _ _) as [[]|e]; reflexivity.
Qed.

Lemma verdict_true_iff (p : profile) (w : World) (image_file : string) :
  verdict p w image_file = Value true <->
  gate_open p w = true
  /\ exists lib c page,
       tifffile w = Some lib /\ parse lib image_file = Value c
       /\ pages c !! 0%nat = Some page
       /\ shape page = required_shape p
       /\ tag_verdict p page = Value true.
Proof.
  unfold verdict, first_page_verdict. split.
  - destruct (gate_open p w); [|discriminate].
    destruct (tifffile w) as [lib|]; [|discriminate].
    destruct (parse lib image_file) as [c|e] eqn:Hc; [|discriminate].
    destruct (pages c) as [|page ps] eqn:Hp; [discriminate|].
    case_bool_decide as Hs; [|discriminate].
    intros Ht. split; [reflexivity|].
    exists lib, c, page. rewrite Hp. auto.
  - intros (-> & lib & c & page & -> & -> & Hp & Hs & Ht).
    destruct (pages c) as [|page' ps]; [discriminate|].
    simpl in Hp. injection Hp as ->.
    now rewrite bool_decide_eq_true_2.
Qed.

Lemma verdict_opened (p : profile) (w : World) (image_file : string)
    (lib : tifffile_module) (c : TiffContents) (page : TiffPage) :
  gate_open p w = true -> tifffile w = Some lib ->
  parse lib image_file = Value c -> pages c !! 0%nat = Some page ->
  verdict p w image_file = first_page_verdict p page.
Proof.
  intros Hg Hl Hc Hp. unfold verdict. rewrite Hg, Hl, Hc.
  destruct (pages c) as [|page' ps]; [discriminate|].
  simpl in Hp. now injection Hp as ->.
Qed.

(** C5: with [QD_MERLIN_TIFF] unset the Merlin predicate returns False
    before it touches the file; with the variable set to any value it
    returns True exactly when the first page of the file has shape
    512x512, and on any file with a first page it returns whether that
    shape is 512x512. *)
Theorem merlin_understand_gate (w : World) (st : State) (image_file : string) :
  (environ w !! "QD_MERLIN_TIFF" = None ->
   call (FormatTIFFgeneric_Merlin.understand image_file) w st = (Value false, st))
  /\ (forall v, environ w !! "QD_MERLIN_TIFF" = Some v ->
      (run_understand Merlin w st image_file = Value true <->
       exists lib c page,
         tifffile w = Some lib /\ parse lib image_file = Value c
         /\ pages c !! 0%nat = Some page /\ shape page = [512; 512])
      /\ (forall lib c page,
            tifffile w = Some lib -> parse lib image_file = Value c ->
            pages c !! 0%nat = Some page ->
            run_understand Merlin w st image_file
            = Value (bool_decide (shape page = [512; 512])))).
Proof.
  split.
  - intros H. py_unfold. rewrite H. reflexivity.
  - intros v Hv.
    assert (gate_open Merlin w = true) as Hg.
    { unfold gate_open; simpl. rewrite Hv. reflexivity. }
    rewrite understand_verdict. split.
    + rewrite verdict_true_iff. split.
      * intros (_ & lib & c & page & H1 & H2 & H3 & H4 & _). eauto 8.
      * intros (lib & c & page & H1 & H2 & H3 & H4).
        split; [exact Hg|]. exists lib, c, page. auto 8.
    + intros lib c page H1 H2 H3.
      rewrite (verdict_opened Merlin w image_file lib c page Hg H1 H2 H3).
      unfold first_page_verdict; simpl. now case_bool_decide.
Qed.

Lemma merlin_understand_gate_witness :
  call (FormatTIFFgeneric_Merlin.understand "merlin_001.tif") no_codec_world st0
    = (Value false, st0)
  /\ run_understand Merlin example_world st0 "merlin_001.tif" = Value true
  /\ run_understand Merlin example_world st0 "medipix_001.tif" = Value false.
Proof.
  pose proof (merlin_understand_gate no_codec_world st0 "merlin_001.tif")
    as [Hunset _].
  pose proof (merlin_understand_gate example_world st0 "merlin_001.tif")
    as [_ Hset].
  pose proof (merlin_understand_gate example_world st0 "medipix_001.tif")
    as [_ Hset'].
  split; [exact (Hunset eq_refl)|]. split.
  - destruct (Hset "1" eq_refl) as [_ H].
    exact (H example_codec (single_page (page_of 512 512 ∅)) (page_of 512 512 ∅)
             eq_refl eq_refl eq_refl).
  - destruct (Hset' "1" eq_refl) as [_ H].
    exact (H example_codec (single_page (page_of 514 514 ∅)) (page_of 514 514 ∅)
             eq_refl eq_refl eq_refl).
Defined.

(** C6, as stated, fails: a 516x516 page whose tag 270 comes back as
    bytes that do not hold the text is not answered with False; the [in]
    test refuses the bytes and [TypeError] leaves the predicate. *)
Lemma asi_raises_on_bytes_description :
  parse bytes_codec "asi_bytes.tif"
    = Value (single_page (page_of 516 516 bytes_description_tags))
  /\ bytes_description_tags !! 270
     = Some {| value := PBytes "ImageCameraName: medipix" |}
  /\ str_contains "ImageCameraName: timepix" "ImageCameraName: medipix" = false
  /\ run_understand ASI bytes_world st0 "asi_bytes.tif" = Error TypeError
  /\ (forall b, run_understand ASI bytes_world st0 "asi_bytes.tif" <> Value b).
Proof.
  split; [reflexivity|]. split; [reflexivity|]. split; [reflexivity|].
  split; [reflexivity|]. intros b. vm_compute. discriminate.
Qed.

(** C6, amended: on a file with a first page, the ASI predicate returns
    False when that page's shape is not 516x516, and on a 516x516 page
    whose tag 270 is text it returns whether the text contains
    "ImageCameraName: timepix" -- False when it does not.  In general
    its answer on a 516x516 page with tag 270 is that of the [in] test on
    the tag's value, so it returns True exactly when the shape is 516x516
    and that test succeeds; a value handed out as bytes makes the test
    raise [TypeError] instead of giving False. *)
Theorem asi_understand_shape_and_tag (w : World) (st : State)
    (image_file : string) (lib : tifffile_module) (c : TiffContents)
    (page : TiffPage) :
  tifffile w = Some lib ->
  parse lib image_file = Value c ->
  pages c !! 0%nat = Some page ->
  (shape page <> [516; 516] -> run_understand ASI w st image_file = Value false)
  /\ (forall t s, shape page = [516; 516] -> tags page !! 270 = Some t ->
      value t = PStr s ->
      run_understand ASI w st image_file
      = Value (str_contains "ImageCameraName: timepix" s))
  /\ (forall t, shape page = [516; 516] -> tags page !! 270 = Some t ->
      run_understand ASI w st image_file
      = py_in "ImageCameraName: timepix" (value t))
  /\ (run_understand ASI w st image_file = Value true <->
      shape page = [516; 516]
      /\ exists t, tags page !! 270 = Some t
                   /\ py_in "ImageCameraName: timepix" (value t) = Value true)
  /\ (forall t b, shape page = [516; 516] -> tags page !! 270 = Some t ->
      value t = PBytes b ->
      run_understand ASI w st image_file = Error TypeError).
Proof.
  intros H1 H2 H3.
  rewrite understand_verdict.
  rewrite (verdict_opened ASI w image_file lib c page eq_refl H1 H2 H3).
  unfold first_page_verdict; simpl.
  split; [|split; [|split; [|split]]].
  - intros Hs. now rewrite bool_decide_eq_false_2.
  - intros t s Hs Ht Hv. rewrite bool_decide_eq_true_2 by exact Hs.
    now rewrite Ht, Hv.
  - intros t Hs Ht. rewrite bool_decide_eq_true_2 by exact Hs. now rewrite Ht.
  - split.
    + case_bool_decide as Hs; [|discriminate].
      destruct (tags page !! 270) as [t|]; [|discriminate].
      intros Hin. eauto.
    + intros [Hs (t & Ht & Hin)].
      rewrite bool_decide_eq_true_2 by exact Hs. now rewrite Ht.
  - intros t b Hs Ht Hv. rewrite bool_decide_eq_true_2 by exact Hs.
    now rewrite Ht, Hv.
Qed.

Lemma asi_understand_shape_and_tag_witness :
  run_understand ASI example_world st0 "asi_001.tif" = Value true
  /\ run_understand ASI example_world st0 "merlin_001.tif" = Value false
  /\ run_understand ASI bytes_world st0 "asi_bytes.tif" = Error TypeError.
Proof.
  split; [|split].
  - destruct (asi_understand_shape_and_tag example_world st0 "asi_001.tif"
                example_codec (single_page (page_of 516 516 timepix_tags))
                (page_of 516 516 timepix_tags) eq_refl eq_refl eq_refl)
      as (_ & _ & _ & Hiff & _).
    apply Hiff. split; [reflexivity|].
    exists {| value := PStr "ImageCameraName: timepix; Mode: 12bit" |}.
    split; reflexivity.
  - destruct (asi_understand_shape_and_tag example_world st0 "merlin_001.tif"
                example_codec (single_page (page_of 512 512 ∅))
                (page_of 512 512 ∅) eq_refl eq_refl eq_refl)
      as (Hshape & _).
    apply Hshape. simpl. discriminate.
  - destruct (asi_understand_shape_and_tag bytes_world st0 "asi_bytes.tif"
                bytes_codec
                (single_page (page_of 516 516 bytes_description_tags))
                (page_of 516 516 bytes_description_tags)
                eq_refl eq_refl eq_refl)
      as (_ & _ & _ & _ & Hbytes).
    exact (Hbytes _ "ImageCameraName: medipix" eq_refl eq_refl eq_refl).
Defined.




(** C4, as stated, fails: a two-page stack whose first page is 514x514
    is accepted by the Medipix predicate and rejected by the base
    predicate. *)
Lemma specialization_accepts_multipage_file :
  length (pages stack_514) = 2%nat
  /\ parse example_codec "stack.tif" = Value stack_514
  /\ run_understand Medipix example_world st0 "stack.tif" = Value true
  /\ run_base example_world st0 "stack.tif" = Value false.
Proof. repeat split. Qed.

(** C4, amended: each specialization is the short-circuiting conjunction
    of its own checks alone -- environment gate, then shape of the first
    page, then tag content.  It returns True exactly when its gate is
    open, the codec opens the file, the file has a first page of the
    required shape, and the tag check succeeds; a shut gate gives False
    before the file is opened and a wrong shape gives False before any
    tag is read.  Page count and series count are not consulted. *)
Theorem specialization_own_checks (p : profile) (w : World) (st : State)
    (image_file : string) :
  (run_understand p w st image_file = Value true <->
   gate_open p w = true
   /\ exists lib c page,
        tifffile w = Some lib /\ parse lib image_file = Value c
        /\ pages c !! 0%nat = Some page
        /\ shape page = required_shape p
        /\ tag_verdict p page = Value true)
  /\ (gate_open p w = false ->
      call (understand_of p image_file) w st = (Value false, st))
  /\ (forall lib c page,
      gate_open p w = true ->
      tifffile w = Some lib -> parse lib image_file = Value c ->
      pages c !! 0%nat = Some page ->
      shape page <> required_shape p ->
      run_understand p w st image_file = Value false).
Proof.
  split; [|split].
  - rewrite understand_verdict. apply verdict_true_iff.
  - unfold gate_open.
    destruct p; simpl; try discriminate; py_unfold;
      destruct (environ w !! _); simpl; (discriminate || reflexivity).
  - intros lib c page Hg Hlib Hc Hp Hs. rewrite understand_verdict.
    rewrite (verdict_opened p w image_file lib c page Hg Hlib Hc Hp).
    unfold first_page_verdict. now rewrite bool_decide_eq_false_2.
Qed.

Lemma specialization_own_checks_witness :
  run_understand Medipix example_world st0 "stack.tif" = Value true
  /\ call (understand_of UED_BNL "stack.tif") example_world st0 = (Value false, st0)
  /\ run_understand UED example_world st0 "stack.tif" = Value false.
Proof.
  destruct (specialization_own_checks Medipix example_world st0 "stack.tif")
    as (H1 & _ & _).
  destruct (specialization_own_checks UED_BNL example_world st0 "stack.tif")
    as (_ & H2 & _).
  destruct (specialization_own_checks UED example_world st0 "stack.tif")
    as (_ & _ & H3).
  split; [|split].
  - apply H1. split; [reflexivity|].
    exists example_codec, stack_514, (page_of 514 514 ∅).
    repeat split.
  - exact (H2 eq_refl).
  - apply (H3 example_codec stack_514 (page_of 514 514 ∅)
             eq_refl eq_refl eq_refl eq_refl).
    simpl. discriminate.
Defined.

(** ** Detector stubs *)

(** C9: every profile's trusted range is (-1, 2^dyn_range - 1) for the
    dynamic range its detector stub declares; the declared ranges are 12
    (Merlin), 20 (ASI), 14 (Tecnai), 16 (Medipix), 20 (UED), 20 (UED BNL),
    so that Merlin gets (-1, 4095) and Medipix (-1, 65535). *)
Theorem trusted_range_from_dyn_range :
  (forall p : profile,
     trusted_range (detector_of p) = (-1, 2 ^ dyn_range_of p - 1))
  /\ map dyn_range_of [Merlin; ASI; FEI_Tecnai_G2; Medipix; UED; UED_BNL]
     = [12; 20; 14; 16; 20; 20]
  /\ trusted_range FormatTIFFgeneric_Merlin._detector = (-1, 4095)
  /\ trusted_range FormatTIFFgeneric_Medipix._detector = (-1, 65535)
  /\ map (fun p => trusted_range (detector_of p))
       [Merlin; ASI; FEI_Tecnai_G2; Medipix; UED; UED_BNL]
     = [(-1, 4095); (-1, 1048575); (-1, 16383); (-1, 65535);
        (-1, 1048575); (-1, 1048575)].
Proof.
  split; [|repeat split].
  intros p. destruct p; reflexivity.
Qed.

(** ** The pattern of [_scan] against the trailing run of digits *)

Lemma span_digits_all (s : string) :
  Spec.all_digits s = true -> span_digits s = (s, EmptyString).
Proof.
  induction s as [|a t IH]; simpl; [reflexivity|].
  destruct (is_digit a); simpl; [|discriminate].
  intros H. now rewrite (IH H).
Qed.

Lemma span_digits_stop (s : string) :
  Spec.all_digits s = false ->
  exists d c r, span_digits s = (d, String c r)
                /\ is_digit c = false /\ occurs c s = true.
Proof.
  induction s as [|a t IH]; simpl; [discriminate|].
  destruct (is_digit a) eqn:Ha; simpl.
  - intros H. destruct (IH H) as (d & c & r & -> & Hc & Ho).
    exists (String a d), c, r. rewrite Ho.
    split; [reflexivity|]. split; [assumption|]. now destruct (Ascii.eqb a c).
  - intros _. exists EmptyString, a, t. now rewrite Ascii.eqb_refl.
Qed.

Lemma span_digits_none (s : string) :
  Spec.has_digit s = false -> span_digits s = (EmptyString, s).
Proof.
  destruct s as [|a t]; simpl; [reflexivity|].
  destruct (is_digit a); [discriminate | reflexivity].
Qed.

(** On a string without a line feed, [([0-9]+)$] matches at the start
    exactly when the string is a non-empty run of digits. *)
Lemma digits_to_end_clean (s : string) :
  occurs newline s = false ->
  digits_to_end s =
  if Spec.all_digits s
  then match s with EmptyString => None | _ => Some s end
  else None.
Proof.
  intros Hnl. unfold digits_to_end.
  destruct (Spec.all_digits s) eqn:Hall.
  - rewrite (span_digits_all s Hall). now destruct s.
  - destruct (span_digits_stop s Hall) as (d & c & r & -> & Hc & Ho).
    destruct d as [|a d]; [reflexivity|].
    destruct r as [|b r]; [|reflexivity].
    destruct (Ascii.eqb_spec c newline) as [->|]; [|reflexivity].
    congruence.
Qed.

(** The pattern finds the trailing run of digits of a string without a
    line feed, and fails when that run is empty. *)
Lemma re_match_trailing_digits (s : string) :
  occurs newline s = false ->
  re_match_trailing_number s =
  match Spec.trailing_digits s with
  | EmptyString => None
  | d => Some d
  end.
Proof.
  induction s as [|a t IH]; intros Hnl; [reflexivity|].
  cbn [re_match_trailing_number Spec.trailing_digits].
  rewrite (digits_to_end_clean _ Hnl).
  simpl in Hnl. destruct (Ascii.eqb a newline); [discriminate|].
  destruct (Spec.all_digits (String a t)); [reflexivity|].
  exact (IH Hnl).
Qed.

(** Without any digit the pattern fails, line feed or not. *)
Lemma re_match_no_digit (s : string) :
  Spec.has_digit s = false -> re_match_trailing_number s = None.
Proof.
  induction s as [|a t IH]; intros Hd; [reflexivity|].
  cbn [re_match_trailing_number]. unfold digits_to_end.
  rewrite (span_digits_none _ Hd).
  simpl in Hd. apply orb_false_iff in Hd as [_ Hd].
  destruct (Ascii.eqb a newline); [reflexivity | exact (IH Hd)].
Qed.

Lemma append_cons (a : ascii) (s t : string) :
  String a s +:+ t = String a (s +:+ t).
Proof. reflexivity. Qed.

(** The trailing run is a suffix made of digits, and no longer suffix is. *)
Lemma trailing_digits_suffix (s : string) :
  exists pre, s = pre +:+ Spec.trailing_digits s.
Proof.
  induction s as [|a t [pre IH]].
  - now exists EmptyString.
  - cbn [Spec.trailing_digits].
    destruct (Spec.all_digits (String a t)).
    + now exists EmptyString.
    + exists (String a pre). rewrite append_cons. f_equal. exact IH.
Qed.

Lemma trailing_digits_all (s : string) :
  Spec.all_digits (Spec.trailing_digits s) = true.
Proof.
  induction s as [|a t IH]; [reflexivity|].
  cbn [Spec.trailing_digits].
  now destruct (Spec.all_digits (String a t)) eqn:E.
Qed.

Lemma trailing_digits_longest (pre d : string) :
  Spec.all_digits d = true ->
  exists pre', Spec.trailing_digits (pre +:+ d) = pre' +:+ d.
Proof.
  intros Hd. induction pre as [|a t [pre' IH]].
  - exists EmptyString. change (EmptyString +:+ d) with d.
    destruct d as [|c d]; [reflexivity|].
    cbn [Spec.trailing_digits]. now rewrite Hd.
  - rewrite append_cons. cbn [Spec.trailing_digits].
    destruct (Spec.all_digits (String a (t +:+ d))).
    + now exists (String a t).
    + now exists pre'.
Qed.

(** [int] reads decimal notation: a further digit multiplies by ten. *)
Lemma int_digits_app (acc : Z) (s : string) (c : ascii) :
  int_digits acc (s +:+ String c EmptyString)
  = 10 * int_digits acc s + digit_value c.
Proof.
  revert acc. induction s as [|a t IH]; intros acc; simpl; [reflexivity|].
  apply IH.
Qed.

(** The code's stem is the stem of the rule. *)
Lemma scan_stem_spec (image_file : string) :
  FormatTIFFgeneric.scan_stem image_file = Spec.stem image_file.
Proof.
  unfold FormatTIFFgeneric.scan_stem, FormatTIFFgeneric.os_path_split_tail,
    Spec.stem, Spec.file_name.
  now rewrite !item_last_split, item_first_split.
Qed.

(** [needle in hay] holds exactly when [hay] is [needle] between two
    strings. *)
Lemma prefix_app (n h : string) :
  String.prefix n h = true <-> exists b, h = n +:+ b.
Proof.
  revert h. induction n as [|a n IH]; intros h.
  - split; [intros _; now exists h | intros _; now destruct h].
  - destruct h as [|c h]; simpl.
    + split; [discriminate | intros [b Hb]; discriminate].
    + destruct (ascii_dec a c) as [->|Hne].
      * rewrite IH. split; intros [b Hb]; exists b.
        -- rewrite append_cons. now f_equal.
        -- rewrite append_cons in Hb. congruence.
      * split; [discriminate|]. intros [b Hb].
        rewrite append_cons in Hb. congruence.
Qed.

Lemma str_contains_spec (n h : string) :
  str_contains n h = true <-> exists a b, h = a +:+ n +:+ b.
Proof.
  assert (forall x, (exists a b, x = a +:+ n +:+ b) ->
                    String.prefix n x = false ->
                    exists c t a b, x = String c t /\ t = a +:+ n +:+ b) as Hlater.
  { intros x ([|c a] & b & Hab) E.
    - assert (String.prefix n x = true) as E'
        by (apply prefix_app; exists b; exact Hab).
      congruence.
    - rewrite append_cons in Hab. exists c, (a +:+ n +:+ b), a, b. auto. }
  induction h as [|c h IH]; cbn [str_contains].
  - destruct (String.prefix n EmptyString) eqn:E.
    + apply prefix_app in E as [b Hb].
      split; [intros _; exists EmptyString, b; exact Hb | reflexivity].
    + split; [discriminate|]. intros H.
      destruct (Hlater _ H E) as (c & t & a & b & Hx & _). discriminate.
  - destruct (String.prefix n (String c h)) eqn:E.
    + apply prefix_app in E as [b Hb].
      split; [intros _; exists EmptyString, b; exact Hb | reflexivity].
    + rewrite IH. split.
      * intros (a & b & ->). exists (String c a), b. now rewrite append_cons.
      * intros H. destruct (Hlater _ H E) as (c' & t & a & b & Hx & Ht).
        exists a, b. congruence.
Qed.

(** ** Scan inference *)

Lemma scan_index_spec (image_file : string) :
  occurs newline (Spec.stem image_file) = false ->
  FormatTIFFgeneric.scan_index image_file = Spec.index image_file.
Proof.
  intros Hnl. unfold FormatTIFFgeneric.scan_index, Spec.index.
  rewrite scan_stem_spec, (re_match_trailing_digits _ Hnl).
  now destruct (Spec.trailing_digits (Spec.stem image_file)).
Qed.

Lemma scan_call (image_file : string) (w : World) (st : State) :
  call (FormatTIFFgeneric._scan image_file) w st =
  (let index := FormatTIFFgeneric.scan_index image_file in
   if is_finite (float_of_Z (index - 1))
   then Value {| image_range := (index, index);
                 exposure_times := float_lit 0 1;
                 oscillation := (fmul (float_of_Z (index - 1)) (float_lit 5 1),
                                 float_lit 5 1);
                 epochs := [0];
                 deg := true |}
   else Error OverflowError,
   st).
Proof.
  unfold FormatTIFFgeneric._scan, FormatTIFFgeneric.scan_index,
    FormatTIFFgeneric.scan_stem, int_mul_float, float_of_int, group1,
    call, try_except, bind.
  cbv zeta.
  destruct (re_match_trailing_number _) as [g|]; [|reflexivity].
  cbv -[float_of_Z is_finite fmul float_lit int Z.sub].
  destruct (is_finite (float_of_Z (int g - 1))); reflexivity.
Qed.

(** C7, as stated, fails: with a line feed before the digits the pattern
    cannot reach them ([.] does not cross a line feed), so the index
    falls back to 1 although the substring after the final underscore,
    extension stripped, ends in the digits 12. *)
Lemma scan_index_line_feed :
  Spec.stem ("foo_a" +:+ line_feed +:+ "b12.tif") = "a" +:+ line_feed +:+ "b12"
  /\ Spec.trailing_digits (Spec.stem ("foo_a" +:+ line_feed +:+ "b12.tif")) = "12"
  /\ Spec.index ("foo_a" +:+ line_feed +:+ "b12.tif") = 12
  /\ FormatTIFFgeneric.scan_index ("foo_a" +:+ line_feed +:+ "b12.tif") = 1
  /\ forall w st,
       fst (call (FormatTIFFgeneric._scan ("foo_a" +:+ line_feed +:+ "b12.tif")) w st)
       = Value {| image_range := (1, 1);
                  exposure_times := float_lit 0 1;
                  oscillation := (float_lit 0 1, float_lit 5 1);
                  epochs := [0];
                  deg := true |}.
Proof.
  split; [reflexivity|]. split; [reflexivity|]. split; [reflexivity|].
  split; [reflexivity|]. intros w st. rewrite scan_call. reflexivity.
Qed.

(** C7, amended: scan inference is a pure function of the file name.  For
    a name whose substring after the final underscore, cut at its first
    dot, holds no line feed, the index is the trailing run of decimal
    digits of that substring, 1 when it does not end in a digit; when
    index - 1 is within the range of a float the scan spans
    [index, index] with oscillation (0.5 x (index - 1), 0.5), exposure
    time 0.0 and the single epoch 0.  "foo_023.tif" gives index 23, frame
    22 and oscillation start 11.0; "foo_bar.tif" gives index 1, frame 0
    and oscillation start 0.0. *)
Theorem scan_from_filename :
  (forall image_file w st w' st',
     fst (call (FormatTIFFgeneric._scan image_file) w st)
     = fst (call (FormatTIFFgeneric._scan image_file) w' st')
     /\ snd (call (FormatTIFFgeneric._scan image_file) w st) = st)
  /\ (forall image_file,
      occurs newline (Spec.stem image_file) = false ->
      FormatTIFFgeneric.scan_index image_file = Spec.index image_file
      /\ (is_finite (float_of_Z (Spec.index image_file - 1)) = true ->
          forall w st,
            call (FormatTIFFgeneric._scan image_file) w st =
            (Value {| image_range := (Spec.index image_file, Spec.index image_file);
                      exposure_times := float_lit 0 1;
                      oscillation :=
                        (fmul (float_of_Z (Spec.index image_file - 1)) (float_lit 5 1),
                         float_lit 5 1);
                      epochs := [0];
                      deg := true |},
             st)))
  /\ (FormatTIFFgeneric.scan_index "foo_023.tif" = 23
      /\ fmul (float_of_Z (23 - 1)) (float_lit 5 1) = float_lit 110 1
      /\ forall w st,
           call (FormatTIFFgeneric._scan "foo_023.tif") w st =
           (Value {| image_range := (23, 23);
                     exposure_times := float_lit 0 1;
                     oscillation := (float_lit 110 1, float_lit 5 1);
                     epochs := [0];
                     deg := true |},
            st))
  /\ (FormatTIFFgeneric.scan_index "foo_bar.tif" = 1
      /\ fmul (float_of_Z (1 - 1)) (float_lit 5 1) = float_lit 0 1
      /\ forall w st,
           call (FormatTIFFgeneric._scan "foo_bar.tif") w st =
           (Value {| image_range := (1, 1);
                     exposure_times := float_lit 0 1;
                     oscillation := (float_lit 0 1, float_lit 5 1);
                     epochs := [0];
                     deg := true |},
            st)).
Proof.
  split; [|split; [|split]].
  - intros image_file w st w' st'. now rewrite !scan_call.
  - intros image_file Hnl.
    pose proof (scan_index_spec image_file Hnl) as Hidx.
    split; [exact Hidx|].
    intros Hfin w st. rewrite scan_call, Hidx. cbv zeta. now rewrite Hfin.
  - split; [reflexivity|]. split; [reflexivity|].
    intros w st. rewrite scan_call. reflexivity.
  - split; [reflexivity|]. split; [reflexivity|].
    intros w st. rewrite scan_call. reflexivity.
Qed.

Lemma scan_from_filename_witness :
  FormatTIFFgeneric.scan_index "/data/run_2/foo_023.tif" = 23
  /\ fst (call (FormatTIFFgeneric._scan "/data/run_2/foo_023.tif")
            no_codec_world st0)
     = Value {| image_range := (23, 23);
                exposure_times := float_lit 0 1;
                oscillation := (float_lit 110 1, float_lit 5 1);
                epochs := [0];
                deg := true |}.
Proof.
  destruct scan_from_filename as (_ & H & _).
  destruct (H "/data/run_2/foo_023.tif" eq_refl) as [Hidx Hscan].
  split; [exact Hidx|].
  now rewrite (Hscan eq_refl no_codec_world st0).
Defined.

(** C10, as stated, fails: the default also applies to a substring that
    holds digits but does not end in one ("foo_12a.tif"), and to one
    whose trailing digits lie behind a line feed. *)
Lemma scan_default_despite_digits :
  (Spec.stem "foo_12a.tif" = "12a"
   /\ Spec.has_digit (Spec.stem "foo_12a.tif") = true
   /\ re_match_trailing_number (FormatTIFFgeneric.scan_stem "foo_12a.tif") = None
   /\ FormatTIFFgeneric.scan_index "foo_12a.tif" = 1)
  /\ (Spec.has_digit (Spec.stem ("foo_a" +:+ line_feed +:+ "b12.tif")) = true
      /\ Spec.trailing_digits (Spec.stem ("foo_a" +:+ line_feed +:+ "b12.tif")) = "12"
      /\ re_match_trailing_number
           (FormatTIFFgeneric.scan_stem ("foo_a" +:+ line_feed +:+ "b12.tif")) = None
      /\ FormatTIFFgeneric.scan_index ("foo_a" +:+ line_feed +:+ "b12.tif") = 1).
Proof. repeat split. Qed.

(** C10, amended: the default to index 1 applies whenever the substring
    the index is read from holds no digit at all, and, when that
    substring holds no line feed, exactly when it does not end in a
    decimal digit; it never replaces a parsed value.  "foo_0.tif" parses
    to index 0 (not 1): frame -1, a scan spanning [0, 0] and oscillation
    start -0.5. *)
Theorem scan_default_only_without_trailing_digits :
  (forall image_file,
     Spec.has_digit (Spec.stem image_file) = false ->
     re_match_trailing_number (FormatTIFFgeneric.scan_stem image_file) = None
     /\ FormatTIFFgeneric.scan_index image_file = 1)
  /\ (forall image_file,
      occurs newline (Spec.stem image_file) = false ->
      (re_match_trailing_number (FormatTIFFgeneric.scan_stem image_file) = None
       <-> Spec.trailing_digits (Spec.stem image_file) = EmptyString))
  /\ (forall image_file g,
      re_match_trailing_number (FormatTIFFgeneric.scan_stem image_file) = Some g ->
      FormatTIFFgeneric.scan_index image_file = int g)
  /\ (re_match_trailing_number (FormatTIFFgeneric.scan_stem "foo_0.tif") = Some "0"
      /\ FormatTIFFgeneric.scan_index "foo_0.tif" = 0
      /\ fmul (float_of_Z (0 - 1)) (float_lit 5 1) = float_lit (-5) 1
      /\ forall w st,
           call (FormatTIFFgeneric._scan "foo_0.tif") w st =
           (Value {| image_range := (0, 0);
                     exposure_times := float_lit 0 1;
                     oscillation := (float_lit (-5) 1, float_lit 5 1);
                     epochs := [0];
                     deg := true |},
            st)).
Proof.
  split; [|split; [|split]].
  - intros image_file Hd. unfold FormatTIFFgeneric.scan_index.
    rewrite scan_stem_spec, (re_match_no_digit _ Hd). now split.
  - intros image_file Hnl.
    rewrite scan_stem_spec, (re_match_trailing_digits _ Hnl).
    destruct (Spec.trailing_digits (Spec.stem image_file)); split;
      (reflexivity || discriminate).
  - intros image_file g Hg. unfold FormatTIFFgeneric.scan_index. now rewrite Hg.
  - split; [reflexivity|]. split; [reflexivity|]. split; [reflexivity|].
    intros w st. rewrite scan_call. reflexivity.
Qed.

Lemma scan_default_only_without_trailing_digits_witness :
  FormatTIFFgeneric.scan_index "foo_bar.tif" = 1
  /\ Spec.trailing_digits (Spec.stem "foo_12a.tif") = EmptyString
  /\ FormatTIFFgeneric.scan_index "foo_0.tif" = int "0".
Proof.
  destruct scan_default_only_without_trailing_digits as (H1 & H2 & H3 & _).
  split; [exact (proj2 (H1 "foo_bar.tif" eq_refl))|].
  split; [exact (proj1 (H2 "foo_12a.tif" eq_refl) eq_refl)|].
  exact (H3 "foo_0.tif" "0" eq_refl).
Defined.

(** * Further properties of the code *)

(** ** Handles and output of the specializations *)

Lemma understand_state (p : profile) (w : World) (st : State)
    (image_file : string) :
  let st' := snd (call (understand_of p image_file) w st) in
  stdout st' = stdout st
  /\ (st' = st
      \/ (next_fh st' = S (next_fh st)
          /\ open_fhs st' = ({[ next_fh st ]} ∪ open_fhs st) ∖ {[ next_fh st ]})).
Proof.
  destruct p; py_unfold; simpl.
  all: try (destruct (environ w !! _) as [v|]; simpl; [|now auto]).
  all: destruct (tifffile w) as [lib|]; simpl; [|now auto].
  all: destruct (parse lib image_file) as [c|e]; simpl; [|now auto].
  all: destruct (pages c) as [|page ps]; simpl; [now auto|].
  all: unfold shape_ne; destruct (bool_decide (shape page = _)); simpl;
    try (now auto).
  - destruct (tags page !! 270) as [t|]; simpl; [|now auto].
    destruct (py_in _ _) as [[]|e]; simpl; now auto.
  - destruct (tags page !! 33560) as [t|]; simpl; [|now auto].
    destruct (value t) as [s|b|z|l|d]; simpl; try (now auto).
    destruct (dict_get _ d) as [v|]; simpl; [|now auto].
    destruct (py_in _ _) as [[]|e]; simpl; now auto.
Qed.

(** X1: every specialization leaves the file handles as it found them,
    whether it returns True, returns False or lets an exception out (a
    missing tag, a value of the wrong type, a container without pages):
    the [with] block closes what it opened.  It prints nothing, and the
    state stays well formed for the next call. *)
Theorem specialization_closes_handle (p : profile) (w : World) (st : State)
    (image_file : string) :
  handles_fresh st ->
  open_fhs (snd (call (understand_of p image_file) w st)) = open_fhs st
  /\ stdout (snd (call (understand_of p image_file) w st)) = stdout st
  /\ handles_fresh (snd (call (understand_of p image_file) w st)).
Proof.
  intros Hfresh.
  assert (next_fh st ∉ open_fhs st) as Hnot.
  { intros Hin. apply Hfresh in Hin. lia. }
  destruct (understand_state p w st image_file) as [Hout [-> | [Hnext Hopen]]].
  - auto.
  - rewrite (close_fresh _ _ Hnot) in Hopen.
    split; [exact Hopen|]. split; [exact Hout|].
    intros h Hh. rewrite Hopen in Hh. rewrite Hnext.
    apply Hfresh in Hh. lia.
Qed.

Lemma specialization_closes_handle_witness :
  run_understand ASI both_gates_world st0 "tecnai_001.tif" = Value false
  /\ run_understand FEI_Tecnai_G2 example_world st0 "merlin_001.tif" = Value false
  /\ open_fhs (snd (call (understand_of FEI_Tecnai_G2 "tecnai_001.tif")
                      both_gates_world st0)) = open_fhs st0.
Proof.
  destruct (specialization_closes_handle FEI_Tecnai_G2 both_gates_world st0
              "tecnai_001.tif" st0_fresh) as (H & _).
  split; [reflexivity|]. split; [reflexivity | exact H].
Defined.

(** ** The specializations after the base predicate *)

Lemma py_in_error (key : string) (v : PyVal) (e : exn) :
  py_in key v = Error e -> e = TypeError.
Proof. destruct v; simpl; intros H; now inversion H. Qed.

Lemma base_true_inv (w : World) (st : State) (image_file : string) :
  run_base w st image_file = Value true ->
  exists lib c page,
    tifffile w = Some lib /\ parse lib image_file = Value c
    /\ pages c = [page] /\ length (series c) = 1%nat.
Proof.
  unfold run_base. intros Htrue.
  destruct (tifffile w) as [lib|] eqn:Hlib.
  - destruct (parse lib image_file) as [c|e] eqn:Hparse.
    + rewrite (base_opened w st image_file lib c Hlib Hparse) in Htrue.
      simpl in Htrue. injection Htrue as Htrue.
      apply andb_true_iff in Htrue as [H1 H2].
      apply bool_decide_eq_true_1 in H1. apply bool_decide_eq_true_1 in H2.
      destruct (pages c) as [|page [|page' ps]] eqn:Hp; try discriminate.
      exists lib, c, page. auto.
    + rewrite (base_open_error w st image_file lib e Hlib Hparse) in Htrue.
      simpl in Htrue. now case_bool_decide.
  - now rewrite (base_no_codec w st image_file Hlib) in Htrue.
Qed.

(** X2: on a file the base predicate accepts, a specialization called in
    any later state finds the container open and its one page in place:
    Merlin, Medipix, UED and UED BNL return a boolean -- gate open and
    page of the required shape -- and the only exceptions left are the
    tag lookups of ASI and Tecnai ([KeyError], [TypeError]). *)
Theorem base_accept_guards_specializations (w : World) (st : State)
    (image_file : string) :
  run_base w st image_file = Value true ->
  exists lib c page,
    tifffile w = Some lib /\ parse lib image_file = Value c
    /\ pages c = [page]
    /\ forall p st',
         (p <> ASI -> p <> FEI_Tecnai_G2 ->
          run_understand p w st' image_file
          = Value (gate_open p w && bool_decide (shape page = required_shape p)))
         /\ (forall e, run_understand p w st' image_file = Error e ->
             (p = ASI \/ p = FEI_Tecnai_G2) /\ (e = KeyError \/ e = TypeError)).
Proof.
  intros Htrue.
  destruct (base_true_inv w st image_file Htrue)
    as (lib & c & page & Hlib & Hparse & Hpages & _).
  exists lib, c, page. repeat (split; [assumption|]).
  intros p st'. rewrite understand_verdict.
  unfold verdict, first_page_verdict. rewrite Hlib, Hparse, Hpages.
  destruct (gate_open p w); simpl.
  2:{ split; [reflexivity | discriminate]. }
  case_bool_decide as Hs.
  2:{ split; [reflexivity | discriminate]. }
  split.
  - destruct p; simpl; intros; (reflexivity || congruence).
  - intros e. destruct p; simpl; try discriminate.
    + destruct (tags page !! 270) as [t|]; [|intros [= <-]; now auto].
      intros He. apply py_in_error in He. auto.
    + destruct (tags page !! 33560) as [t|]; [|intros [= <-]; now auto].
      destruct (value t) as [s|b|z|l|d]; try (intros [= <-]; now auto).
      destruct (dict_get "cameraname" d) as [v|]; [|intros [= <-]; now auto].
      intros He. apply py_in_error in He. auto.
Qed.

Lemma base_accept_guards_specializations_witness :
  run_understand Merlin example_world st0 "merlin_001.tif" = Value true
  /\ run_understand UED example_world st0 "merlin_001.tif" = Value false.
Proof.
  destruct (base_accept_guards_specializations example_world st0
              "merlin_001.tif" eq_refl)
    as (lib & c & page & Hlib & Hparse & Hpages & H).
  injection Hlib as <-. injection Hparse as <-. injection Hpages as <-.
  split.
  - destruct (H Merlin st0) as [Hb _].
    rewrite (Hb ltac:(discriminate) ltac:(discriminate)). reflexivity.
  - destruct (H UED st0) as [Hb _].
    rewrite (Hb ltac:(discriminate) ltac:(discriminate)). reflexivity.
Defined.

(** ** Which specializations can accept the same file *)

Lemma required_shape_inj (p q : profile) :
  required_shape p = required_shape q ->
  p = q \/ (p = Merlin /\ q = UED_BNL) \/ (p = UED_BNL /\ q = Merlin).
Proof. destruct p, q; simpl; intros H; try discriminate H; auto. Qed.

(** X3: two different specializations never both return True on one
    file, with one exception: Merlin and UED BNL, which ask for the same
    512x512 shape behind different environment gates. *)
Theorem accepting_profiles_overlap (p q : profile) (w : World)
    (st st' : State) (image_file : string) :
  run_understand p w st image_file = Value true ->
  run_understand q w st' image_file = Value true ->
  p = q \/ (p = Merlin /\ q = UED_BNL) \/ (p = UED_BNL /\ q = Merlin).
Proof.
  rewrite !understand_verdict, !verdict_true_iff.
  intros (_ & lib & c & page & Hlib & Hc & Hp & Hs & _)
         (_ & lib' & c' & page' & Hlib' & Hc' & Hp' & Hs' & _).
  rewrite Hlib in Hlib'. injection Hlib' as <-.
  rewrite Hc in Hc'. injection Hc' as <-.
  rewrite Hp in Hp'. injection Hp' as <-.
  apply required_shape_inj. congruence.
Qed.

Lemma accepting_profiles_overlap_witness :
  run_understand Merlin both_gates_world st0 "bnl_0001.tif" = Value true
  /\ run_understand UED_BNL both_gates_world st0 "bnl_0001.tif" = Value true
  /\ (Merlin = UED_BNL \/ (Merlin = Merlin /\ UED_BNL = UED_BNL)
      \/ (Merlin = UED_BNL /\ UED_BNL = Merlin)).
Proof.
  split; [reflexivity|]. split; [reflexivity|].
  exact (accepting_profiles_overlap Merlin UED_BNL both_gates_world st0 st0
           "bnl_0001.tif" eq_refl eq_refl).
Defined.

(** X4: with both gates set, the Merlin and the UED BNL predicate cannot
    tell files apart: on every file they give the same boolean or let out
    the same exception. *)
Theorem merlin_and_ued_bnl_agree (w : World) (st st' : State)
    (image_file : string) :
  is_Some (environ w !! "QD_MERLIN_TIFF") ->
  is_Some (environ w !! "UED_BNL_TIFF") ->
  run_understand Merlin w st image_file
  = run_understand UED_BNL w st' image_file.
Proof.
  intros Hm Hb. rewrite !understand_verdict.
  unfold verdict, gate_open; simpl.
  now rewrite !bool_decide_eq_true_2.
Qed.

Lemma merlin_and_ued_bnl_agree_witness :
  run_understand Merlin both_gates_world st0 "bnl_0001.tif"
  = run_understand UED_BNL both_gates_world st0 "bnl_0001.tif"
  /\ run_understand UED_BNL both_gates_world st0 "bnl_0001.tif" = Value true.
Proof.
  split; [|reflexivity].
  apply (merlin_and_ued_bnl_agree both_gates_world st0 st0 "bnl_0001.tif").
  - exists "1". reflexivity.
  - exists "". reflexivity.
Defined.

(** ** The remaining predicates, branch by branch *)

(** X5: on a file with a first page, the Tecnai predicate returns False
    when that page is not 1024x1024; on a 1024x1024 page whose tag 33560
    is a mapping with a [cameraname] entry its outcome is that of the
    [in] test of "Veleta" on the entry; and it returns True exactly when
    the page is 1024x1024, tag 33560 is present, its value is a mapping
    with a [cameraname] entry, and that entry contains "Veleta". *)
Theorem tecnai_understand_shape_and_tag (w : World) (st : State)
    (image_file : string) (lib : tifffile_module) (c : TiffContents)
    (page : TiffPage) :
  tifffile w = Some lib ->
  parse lib image_file = Value c ->
  pages c !! 0%nat = Some page ->
  (shape page <> [1024; 1024] ->
   run_understand FEI_Tecnai_G2 w st image_file = Value false)
  /\ (forall t d v, shape page = [1024; 1024] ->
      tags page !! 33560 = Some t -> value t = PDict d ->
      dict_get "cameraname" d = Some v ->
      run_understand FEI_Tecnai_G2 w st image_file = py_in "Veleta" v)
  /\ (forall t d s, shape page = [1024; 1024] ->
      tags page !! 33560 = Some t -> value t = PDict d ->
      dict_get "cameraname" d = Some (PStr s) ->
      run_understand FEI_Tecnai_G2 w st image_file
      = Value (str_contains "Veleta" s))
  /\ (run_understand FEI_Tecnai_G2 w st image_file = Value true <->
      shape page = [1024; 1024]
      /\ exists t d v, tags page !! 33560 = Some t /\ value t = PDict d
                       /\ dict_get "cameraname" d = Some v
                       /\ py_in "Veleta" v = Value true).
Proof.
  intros H1 H2 H3.
  rewrite understand_verdict.
  rewrite (verdict_opened FEI_Tecnai_G2 w image_file lib c page eq_refl H1 H2 H3).
  unfold first_page_verdict; simpl.
  split; [|split; [|split; [|split]]].
  - intros Hs. now rewrite bool_decide_eq_false_2.
  - intros t d v Hs Ht Hv Hd. rewrite bool_decide_eq_true_2 by exact Hs.
    now rewrite Ht, Hv, Hd.
  - intros t d v Hs Ht Hv Hd. rewrite bool_decide_eq_true_2 by exact Hs.
    now rewrite Ht, Hv, Hd.
  - case_bool_decide as Hs; [|discriminate].
    destruct (tags page !! 33560) as [t|]; [|discriminate].
    destruct (value t) as [s|b|z|l|d] eqn:Hv; try discriminate.
    destruct (dict_get "cameraname" d) as [v|] eqn:Hd; [|discriminate].
    intros Hin. split; [assumption|]. exists t, d, v. auto.
  - intros [Hs (t & d & v & Ht & Hv & Hd & Hin)].
    rewrite bool_decide_eq_true_2 by exact Hs. now rewrite Ht, Hv, Hd.
Qed.

Lemma tecnai_understand_shape_and_tag_witness :
  run_understand FEI_Tecnai_G2 both_gates_world st0 "tecnai_001.tif" = Value true
  /\ run_understand FEI_Tecnai_G2 both_gates_world st0 "bnl_0001.tif" = Value false.
Proof.
  split.
  - destruct (tecnai_understand_shape_and_tag both_gates_world st0
                "tecnai_001.tif" bnl_codec
                (single_page (page_of 1024 1024 veleta_tags))
                (page_of 1024 1024 veleta_tags) eq_refl eq_refl eq_refl)
      as (_ & Hval & _).
    exact (Hval _ _ (PStr "Veleta 2k") eq_refl eq_refl eq_refl eq_refl).
  - destruct (tecnai_understand_shape_and_tag both_gates_world st0
                "bnl_0001.tif" bnl_codec
                (single_page (page_of 512 512 ∅))
                (page_of 512 512 ∅) eq_refl eq_refl eq_refl)
      as (Hshape & _).
    apply Hshape. simpl. discriminate.
Defined.

(** X6: with [UED_BNL_TIFF] unset the UED BNL predicate returns False
    before it touches the file; with the variable set to any value, the
    empty string included, it returns True exactly when the first page of
    the file has shape 512x512. *)
Theorem ued_bnl_understand_gate (w : World) (st : State) (image_file : string) :
  (environ w !! "UED_BNL_TIFF" = None ->
   call (FormatTIFF_UED_BNL.understand image_file) w st = (Value false, st))
  /\ (forall v, environ w !! "UED_BNL_TIFF" = Some v ->
      (run_understand UED_BNL w st image_file = Value true <->
       exists lib c page,
         tifffile w = Some lib /\ parse lib image_file = Value c
         /\ pages c !! 0%nat = Some page /\ shape page = [512; 512])
      /\ (forall lib c page,
            tifffile w = Some lib -> parse lib image_file = Value c ->
            pages c !! 0%nat = Some page ->
            run_understand UED_BNL w st image_file
            = Value (bool_decide (shape page = [512; 512])))).
Proof.
  split.
  - intros H. py_unfold. rewrite H. reflexivity.
  - intros v Hv.
    assert (gate_open UED_BNL w = true) as Hg.
    { unfold gate_open; simpl. rewrite Hv. reflexivity. }
    rewrite understand_verdict. split.
    + rewrite verdict_true_iff. split.
      * intros (_ & lib & c & page & H1 & H2 & H3 & H4 & _). eauto 8.
      * intros (lib & c & page & H1 & H2 & H3 & H4).
        split; [exact Hg|]. exists lib, c, page. auto 8.
    + intros lib c page H1 H2 H3.
      rewrite (verdict_opened UED_BNL w image_file lib c page Hg H1 H2 H3).
      unfold first_page_verdict; simpl. now case_bool_decide.
Qed.

Lemma ued_bnl_understand_gate_witness :
  call (FormatTIFF_UED_BNL.understand "bnl_0001.tif") example_world st0
    = (Value false, st0)
  /\ run_understand UED_BNL both_gates_world st0 "bnl_0001.tif" = Value true.
Proof.
  pose proof (ued_bnl_understand_gate example_world st0 "bnl_0001.tif")
    as [Hunset _].
  pose proof (ued_bnl_understand_gate both_gates_world st0 "bnl_0001.tif")
    as [_ Hset].
  split; [exact (Hunset eq_refl)|].
  destruct (Hset "" eq_refl) as [_ H].
  exact (H bnl_codec (single_page (page_of 512 512 ∅)) (page_of 512 512 ∅)
           eq_refl eq_refl eq_refl).
Defined.

(** X7: the Medipix and UED predicates look at nothing but the shape of
    the first page: on a file with a first page Medipix returns whether
    it is 514x514 and UED whether it is 1300x1340, in that order (a
    1340x1300 page is rejected). *)
Theorem shape_only_understand (w : World) (st : State) (image_file : string)
    (lib : tifffile_module) (c : TiffContents) (page : TiffPage) :
  tifffile w = Some lib ->
  parse lib image_file = Value c ->
  pages c !! 0%nat = Some page ->
  run_understand Medipix w st image_file
    = Value (bool_decide (shape page = [514; 514]))
  /\ run_understand UED w st image_file
     = Value (bool_decide (shape page = [1300; 1340]))
  /\ (shape page = [1340; 1300] ->
      run_understand UED w st image_file = Value false).
Proof.
  intros H1 H2 H3. rewrite !understand_verdict.
  rewrite (verdict_opened Medipix w image_file lib c page eq_refl H1 H2 H3).
  rewrite (verdict_opened UED w image_file lib c page eq_refl H1 H2 H3).
  unfold first_page_verdict; simpl.
  split; [now case_bool_decide|]. split; [now case_bool_decide|].
  intros ->. reflexivity.
Qed.

Lemma shape_only_understand_witness :
  run_understand Medipix both_gates_world st0 "ued_001.tif" = Value false
  /\ run_understand UED both_gates_world st0 "ued_001.tif" = Value true.
Proof.
  destruct (shape_only_understand both_gates_world st0 "ued_001.tif" bnl_codec
              (single_page (page_of 1300 1340 ∅)) (page_of 1300 1340 ∅)
              eq_refl eq_refl eq_refl) as (Hm & Hu & _).
  split; [exact Hm | exact Hu].
Defined.

(** ** What the predicates do not depend on *)

Lemma base_result (w : World) (st : State) (image_file : string) :
  run_base w st image_file =
  match tifffile w with
  | None => Value false
  | Some lib =>
      match parse lib image_file with
      | Error e => if bool_decide (e = TiffFileError) then Value false else Error e
      | Value c => Value (bool_decide (length (pages c) = 1%nat)
                          && bool_decide (length (series c) = 1%nat))
      end
  end.
Proof.
  unfold run_base.
  destruct (tifffile w) as [lib|] eqn:Hlib.
  - destruct (parse lib image_file) as [c|e] eqn:Hparse.
    + now rewrite (base_opened w st image_file lib c Hlib Hparse).
    + now rewrite (base_open_error w st image_file lib e Hlib Hparse).
  - now rewrite (base_no_codec w st image_file Hlib).
Qed.

(** X8: the environment reaches a verdict only through the two gates.
    The base predicate and the four ungated specializations give the
    same result under any two environments, and a gated specialization
    gives the same result whenever its variable is set, whatever its
    value and whatever else is set. *)
Theorem environment_only_gates (w : World) (env' : gmap string string)
    (st : State) (image_file : string) :
  let w' := {| tifffile := tifffile w; environ := env' |} in
  run_base w st image_file = run_base w' st image_file
  /\ (forall p, gate_of p = None ->
      run_understand p w st image_file = run_understand p w' st image_file)
  /\ (forall p name, gate_of p = Some name ->
      is_Some (environ w !! name) -> is_Some (env' !! name) ->
      run_understand p w st image_file = run_understand p w' st image_file).
Proof.
  intros w'. split; [|split].
  - now rewrite !base_result.
  - intros p Hg. rewrite !understand_verdict. unfold verdict, gate_open.
    now rewrite Hg.
  - intros p name Hg Hset Hset'. rewrite !understand_verdict.
    unfold verdict, gate_open. rewrite Hg. simpl.
    now rewrite !bool_decide_eq_true_2.
Qed.

Lemma environment_only_gates_witness :
  run_understand Medipix example_world st0 "medipix_001.tif"
  = run_understand Medipix
      {| tifffile := Some example_codec; environ := ∅ |} st0 "medipix_001.tif"
  /\ run_understand Merlin example_world st0 "merlin_001.tif"
     = run_understand Merlin
         {| tifffile := Some example_codec;
            environ := {[ "QD_MERLIN_TIFF" := "" ]} |} st0 "merlin_001.tif".
Proof.
  destruct (environment_only_gates example_world ∅ st0 "medipix_001.tif")
    as (_ & H & _).
  destruct (environment_only_gates example_world {[ "QD_MERLIN_TIFF" := "" ]}
              st0 "merlin_001.tif") as (_ & _ & H').
  split.
  - exact (H Medipix eq_refl).
  - apply (H' Merlin "QD_MERLIN_TIFF" eq_refl).
    + exists "1". reflexivity.
    + exists "". reflexivity.
Defined.

(** ** Predicate and detector stub of one class *)

(** X9: a specialization accepts a file only if the shape of its first
    page is, number for number and in the order written, the
    [image_size] its own detector stub declares. *)
Theorem accepted_page_matches_detector (p : profile) (w : World) (st : State)
    (image_file : string) :
  run_understand p w st image_file = Value true ->
  exists lib c page,
    tifffile w = Some lib /\ parse lib image_file = Value c
    /\ pages c !! 0%nat = Some page
    /\ shape page = image_size_shape (detector_of p).
Proof.
  rewrite understand_verdict, verdict_true_iff.
  intros (_ & lib & c & page & H1 & H2 & H3 & H4 & _).
  exists lib, c, page. repeat (split; [assumption|]).
  rewrite H4. now destruct p.
Qed.

Lemma accepted_page_matches_detector_witness :
  exists page,
    pages (single_page (page_of 1300 1340 ∅)) !! 0%nat = Some page
    /\ shape page = image_size_shape FormatTIFF_UED._detector.
Proof.
  destruct (accepted_page_matches_detector UED both_gates_world st0
              "ued_001.tif" eq_refl) as (lib & c & page & H1 & H2 & H3 & H4).
  injection H1 as <-. injection H2 as <-.
  exists page. split; assumption.
Defined.

(** ** The pattern of [_scan], in full *)

Lemma span_digits_split (s : string) :
  s = fst (span_digits s) +:+ snd (span_digits s)
  /\ Spec.all_digits (fst (span_digits s)) = true.
Proof.
  induction s as [|a t [IH1 IH2]]; simpl; [now split|].
  destruct (is_digit a) eqn:Ha; [|now split].
  destruct (span_digits t) as [d r]; simpl in *.
  rewrite Ha, IH2. split; [|reflexivity].
  rewrite append_cons. now f_equal.
Qed.

Lemma span_digits_app (g r : string) :
  Spec.all_digits g = true ->
  (r = EmptyString \/ r = line_feed) ->
  span_digits (g +:+ r) = (g, r).
Proof.
  intros Hg Hr. induction g as [|a g IH].
  - change (EmptyString +:+ r) with r. destruct Hr as [-> | ->]; reflexivity.
  - rewrite append_cons. simpl in *.
    apply andb_true_iff in Hg as [Ha Hg]. now rewrite Ha, (IH Hg).
Qed.

Lemma digits_to_end_some (s g : string) :
  digits_to_end s = Some g ->
  exists r, s = g +:+ r /\ g <> EmptyString /\ Spec.all_digits g = true
            /\ (r = EmptyString \/ r = line_feed).
Proof.
  unfold digits_to_end.
  destruct (span_digits_split s) as [Hs Hd].
  destruct (span_digits s) as [d r]; simpl in *.
  destruct d as [|c d]; [discriminate|].
  destruct r as [|n [|x r]]; try discriminate.
  - intros [= <-]. exists EmptyString. auto.
  - destruct (Ascii.eqb_spec n newline) as [->|]; [|discriminate].
    intros [= <-]. exists line_feed. auto.
Qed.

Lemma digits_to_end_app (g r : string) :
  g <> EmptyString -> Spec.all_digits g = true ->
  (r = EmptyString \/ r = line_feed) ->
  digits_to_end (g +:+ r) = Some g.
Proof.
  intros Hne Hg Hr. unfold digits_to_end.
  rewrite (span_digits_app g r Hg Hr).
  destruct g as [|c g]; [contradiction|].
  destruct Hr as [-> | ->]; reflexivity.
Qed.

(** A prefix that does not end in a digit stops the run of digits at
    least two characters before the end of the string. *)
Lemma span_digits_stops_early (pre rest : string) :
  pre <> EmptyString -> ends_in_digit pre = false -> rest <> EmptyString ->
  exists d c x y, span_digits (pre +:+ rest) = (d, String c (String x y)).
Proof.
  intros Hne He Hrest. induction pre as [|b p IH]; [contradiction|].
  rewrite append_cons. cbn [span_digits].
  destruct (is_digit b) eqn:Hb.
  - destruct p as [|b' p].
    + simpl in He. congruence.
    + destruct IH as (d & c & x & y & E); [discriminate | exact He |].
      rewrite E. eauto.
  - destruct (p +:+ rest) as [|x y] eqn:E.
    + destruct p; [now destruct rest | discriminate].
    + eauto.
Qed.

Lemma append_nonempty (a b : string) :
  a <> EmptyString -> a +:+ b <> EmptyString.
Proof. destruct a; [contradiction | discriminate]. Qed.

(** X10: what the pattern [.*?([0-9]+)$] of [_scan] finds.  It matches
    with group [g] exactly when the string is some [pre], then the
    non-empty run of digits [g], then nothing or one final line feed,
    where [pre] holds no line feed and does not end in a digit.  So the
    group is always the whole trailing run of digits, never a part of
    it, and one line feed after the run is overlooked. *)
Theorem re_match_characterised (s g : string) :
  re_match_trailing_number s = Some g <->
  exists pre r,
    s = pre +:+ g +:+ r
    /\ g <> EmptyString /\ Spec.all_digits g = true
    /\ (r = EmptyString \/ r = line_feed)
    /\ occurs newline pre = false /\ ends_in_digit pre = false.
Proof.
  split.
  - induction s as [|a t IH].
    + cbn. discriminate.
    + cbn [re_match_trailing_number].
      destruct (digits_to_end (String a t)) as [g'|] eqn:E.
      * intros [= ->]. destruct (digits_to_end_some _ _ E) as (r & Hs & H).
        exists EmptyString, r. destruct H as (? & ? & ?). auto 7.
      * destruct (Ascii.eqb a newline) eqn:Ha; [discriminate|].
        intros Hm. destruct (IH Hm) as (pre & r & -> & Hne & Hg & Hr & Hnl & He).
        exists (String a pre), r. rewrite append_cons.
        split; [reflexivity|]. split; [assumption|]. split; [assumption|].
        split; [assumption|]. split; [simpl; now rewrite Ha|].
        destruct pre as [|b pre]; [|exact He].
        simpl. destruct (is_digit a) eqn:Hd; [|reflexivity].
        change (EmptyString +:+ g +:+ r) with (g +:+ r) in E.
        assert (digits_to_end (String a g +:+ r) = Some (String a g)) as E'.
        { apply digits_to_end_app; [discriminate | simpl; now rewrite Hd, Hg | assumption]. }
        rewrite append_cons in E'. congruence.
  - intros (pre & r & -> & Hne & Hg & Hr & Hnl & He).
    induction pre as [|a pre IH].
    + change (EmptyString +:+ g +:+ r) with (g +:+ r).
      pose proof (digits_to_end_app g r Hne Hg Hr) as E.
      destruct (g +:+ r) as [|x y] eqn:Egr.
      * now apply (append_nonempty g r Hne) in Egr.
      * cbn [re_match_trailing_number]. now rewrite E.
    + rewrite append_cons. cbn [re_match_trailing_number].
      simpl in Hnl. destruct (Ascii.eqb a newline); [discriminate|].
      assert (digits_to_end (String a (pre +:+ g +:+ r)) = None) as E.
      { unfold digits_to_end.
        destruct (span_digits_stops_early (String a pre) (g +:+ r))
          as (d & c & x & y & Es);
          [discriminate | exact He | now apply append_nonempty |].
        rewrite append_cons in Es. rewrite Es. now destruct d. }
      rewrite E. apply IH; [exact Hnl|].
      destruct pre as [|b pre]; [reflexivity | exact He].
Qed.

Lemma re_match_characterised_witness :
  re_match_trailing_number ("run7_frame0042" +:+ line_feed) = Some "0042".
Proof.
  apply (re_match_characterised ("run7_frame0042" +:+ line_feed) "0042").
  exists "run7_frame", line_feed.
  split; [reflexivity|]. split; [discriminate|]. split; [reflexivity|].
  split; [now right|]. split; reflexivity.
Defined.

(** ** What [_scan] returns *)

Lemma digit_value_range (c : ascii) :
  is_digit c = true -> 0 <= digit_value c <= 9.
Proof.
  unfold is_digit, digit_value. intros H.
  apply andb_true_iff in H as [H1 H2].
  apply N.leb_le in H1. apply N.leb_le in H2. lia.
Qed.

Lemma int_digits_nonneg (s : string) (acc : Z) :
  Spec.all_digits s = true -> 0 <= acc -> 0 <= int_digits acc s.
Proof.
  revert acc. induction s as [|c t IH]; intros acc Hs Hacc; simpl; [assumption|].
  simpl in Hs. apply andb_true_iff in Hs as [Hc Ht].
  apply IH; [assumption|]. pose proof (digit_value_range c Hc). lia.
Qed.

Lemma scan_limited_call (max_str_digits : nat) (image_file : string)
    (w : World) (st : State) :
  call (FormatTIFFgeneric._scan_limited max_str_digits image_file) w st =
  match re_match_trailing_number (FormatTIFFgeneric.scan_stem image_file) with
  | Some g =>
      if over_digit_limit max_str_digits g then (Error ValueError, st)
      else call (FormatTIFFgeneric._scan image_file) w st
  | None => call (FormatTIFFgeneric._scan image_file) w st
  end.
Proof.
  unfold FormatTIFFgeneric._scan_limited, FormatTIFFgeneric._scan,
    FormatTIFFgeneric.scan_stem, int_mul_float, float_of_int, group1,
    int_limited, lift, call, try_except, bind.
  cbv zeta.
  destruct (re_match_trailing_number _) as [g|]; [|reflexivity].
  cbv -[float_of_Z is_finite fmul float_lit int Z.sub over_digit_limit].
  destruct (over_digit_limit max_str_digits g); [reflexivity|].
  destruct (is_finite (float_of_Z (int g - 1))); reflexivity.
Qed.

(** X11: whatever the path and whatever the interpreter's limit on the
    digits of an [int], the index is never negative and [_scan] ends in
    one of three ways.  When the run of digits the pattern found is over
    the limit, the conversion lets [ValueError] out, which the handler
    for [AttributeError] does not catch.  Otherwise [_scan] returns a
    scan whose two frame numbers are the same index, with exposure time
    0.0, oscillation width 0.5 and the one epoch 0, or the index is too
    large for a float and the multiplication lets [OverflowError] out.  A
    failed pattern match never escapes, nothing else is touched, and with
    no limit set this is [_scan] itself. *)
Theorem scan_outcome (max_str_digits : nat) (image_file : string)
    (w : World) (st : State) :
  0 <= FormatTIFFgeneric.scan_index image_file
  /\ call (FormatTIFFgeneric._scan_limited 0 image_file) w st
     = call (FormatTIFFgeneric._scan image_file) w st
  /\ (forall g,
      re_match_trailing_number (FormatTIFFgeneric.scan_stem image_file) = Some g ->
      over_digit_limit max_str_digits g = true ->
      call (FormatTIFFgeneric._scan_limited max_str_digits image_file) w st
      = (Error ValueError, st))
  /\ ((forall g,
       re_match_trailing_number (FormatTIFFgeneric.scan_stem image_file) = Some g ->
       over_digit_limit max_str_digits g = false) ->
      call (FormatTIFFgeneric._scan_limited max_str_digits image_file) w st
      = (Error OverflowError, st)
      \/ exists start,
           call (FormatTIFFgeneric._scan_limited max_str_digits image_file) w st =
           (Value {| image_range := (FormatTIFFgeneric.scan_index image_file,
                                     FormatTIFFgeneric.scan_index image_file);
                     exposure_times := float_lit 0 1;
                     oscillation := (start, float_lit 5 1);
                     epochs := [0];
                     deg := true |},
            st)).
Proof.
  split; [|split; [|split]].
  - unfold FormatTIFFgeneric.scan_index.
    destruct (re_match_trailing_number _) as [g|] eqn:E; [|lia].
    apply re_match_characterised in E as (pre & r & _ & _ & Hg & _).
    apply int_digits_nonneg; [assumption | lia].
  - rewrite scan_limited_call.
    now destruct (re_match_trailing_number _).
  - intros g Hg Hover. now rewrite scan_limited_call, Hg, Hover.
  - intros Hunder.
    assert (call (FormatTIFFgeneric._scan_limited max_str_digits image_file) w st
            = call (FormatTIFFgeneric._scan image_file) w st) as ->.
    { rewrite scan_limited_call.
      destruct (re_match_trailing_number _) as [g|]; [|reflexivity].
      now rewrite (Hunder g eq_refl). }
    rewrite scan_call. cbv zeta.
    destruct (is_finite _); [right; eauto | now left].
Qed.

Lemma scan_outcome_witness :
  call (FormatTIFFgeneric._scan_limited 4300
          (String.append "img_" (String.append (repeat_char "7" 4301) ".tif")))
       no_codec_world st0
  = (Error ValueError, st0)
  /\ (call (FormatTIFFgeneric._scan_limited 4300 "img_0042.tif")
           no_codec_world st0 = (Error OverflowError, st0)
      \/ exists start,
           call (FormatTIFFgeneric._scan_limited 4300 "img_0042.tif")
                no_codec_world st0 =
           (Value {| image_range := (42, 42);
                     exposure_times := float_lit 0 1;
                     oscillation := (start, float_lit 5 1);
                     epochs := [0];
                     deg := true |},
            st0)).
Proof.
  split.
  - destruct (scan_outcome 4300
                (String.append "img_" (String.append (repeat_char "7" 4301) ".tif"))
                no_codec_world st0) as (_ & _ & Hover & _).
    apply (Hover (repeat_char "7" 4301)); vm_compute; reflexivity.
  - destruct (scan_outcome 4300 "img_0042.tif" no_codec_world st0)
      as (_ & _ & _ & Hunder).
    apply Hunder. intros g Hg. vm_compute in Hg. injection Hg as <-.
    reflexivity.
Defined.

(** X12: only the last component of the path counts.  Whatever the
    directory in front of it, [_scan] reads the same index and returns
    the same scan. *)
Theorem scan_ignores_directory (dir name : string) :
  occurs "/" name = false ->
  FormatTIFFgeneric.scan_index (dir +:+ String "/" name)
  = FormatTIFFgeneric.scan_index name
  /\ forall w st,
       call (FormatTIFFgeneric._scan (dir +:+ String "/" name)) w st
       = call (FormatTIFFgeneric._scan name) w st.
Proof.
  intros Hname.
  assert (FormatTIFFgeneric.scan_index (dir +:+ String "/" name)
          = FormatTIFFgeneric.scan_index name) as Hidx.
  { unfold FormatTIFFgeneric.scan_index, FormatTIFFgeneric.scan_stem,
      FormatTIFFgeneric.os_path_split_tail.
    rewrite !(item_last_split "/").
    now rewrite (after_last_app "/" dir name Hname),
      (after_last_no_sep "/" name Hname). }
  split; [exact Hidx|].
  intros w st. now rewrite !scan_call, Hidx.
Qed.

Lemma scan_ignores_directory_witness :
  FormatTIFFgeneric.scan_index "/data/run_12/img_0007.tif"
  = FormatTIFFgeneric.scan_index "img_0007.tif"
  /\ FormatTIFFgeneric.scan_index "img_0007.tif" = 7.
Proof.
  split; [|reflexivity].
  exact (proj1 (scan_ignores_directory "/data/run_12" "img_0007.tif" eq_refl)).
Defined.

Lemma digits_exclude (c : ascii) (d : string) :
  is_digit c = false -> Spec.all_digits d = true -> occurs c d = false.
Proof.
  intros Hc. induction d as [|a d IH]; simpl; [reflexivity|].
  intros H. apply andb_true_iff in H as [Ha Hd].
  destruct (Ascii.eqb_spec a c) as [->|]; [congruence | now apply IH].
Qed.

Lemma trailing_digits_after_letters (x d : string) :
  Spec.has_digit x = false -> Spec.all_digits d = true ->
  Spec.trailing_digits (x +:+ d) = d.
Proof.
  intros Hx Hd. induction x as [|a x IH].
  - change (EmptyString +:+ d) with d. destruct d as [|c d]; [reflexivity|].
    cbn [Spec.trailing_digits]. now rewrite Hd.
  - rewrite append_cons. simpl in Hx. apply orb_false_iff in Hx as [Ha Hx].
    cbn [Spec.trailing_digits Spec.all_digits]. rewrite Ha. simpl.
    now apply IH.
Qed.

Lemma append_assoc (a b c : string) : (a +:+ b) +:+ c = a +:+ b +:+ c.
Proof.
  induction a as [|x a IH]; [reflexivity|].
  rewrite !append_cons. now f_equal.
Qed.

(** X13: file names of the usual form.  For a name [pre_xd.ext] -- any
    [pre], then after the final underscore some digit-free text [x] and a
    non-empty run of digits [d], then a dot and an extension -- the index
    is [d] read as a decimal number, leading zeros and all. *)
Theorem scan_index_of_numbered_name (pre x d ext : string) :
  occurs "/" (pre +:+ String "_" (x +:+ d +:+ String "." ext)) = false ->
  occurs "_" x = false -> occurs "." x = false -> occurs newline x = false ->
  Spec.has_digit x = false ->
  Spec.all_digits d = true -> d <> EmptyString ->
  occurs "_" ext = false ->
  FormatTIFFgeneric.scan_stem (pre +:+ String "_" (x +:+ d +:+ String "." ext))
  = x +:+ d
  /\ FormatTIFFgeneric.scan_index
       (pre +:+ String "_" (x +:+ d +:+ String "." ext)) = int d.
Proof.
  intros Hslash Hx_ Hxdot Hxnl Hxd Hd Hne Hext.
  set (name := pre +:+ String "_" (x +:+ d +:+ String "." ext)) in *.
  assert (Spec.stem name = x +:+ d) as Hstem.
  { unfold Spec.stem, Spec.file_name.
    rewrite (after_last_no_sep "/" name Hslash). unfold name.
    rewrite after_last_app.
    - rewrite <- append_assoc. apply before_first_app.
      rewrite occurs_app, Hxdot. now apply digits_exclude.
    - rewrite !occurs_app, Hx_. simpl. rewrite Hext.
      now rewrite (digits_exclude "_" d). }
  split; [now rewrite scan_stem_spec|].
  rewrite scan_index_spec.
  - unfold Spec.index. rewrite Hstem, (trailing_digits_after_letters x d Hxd Hd).
    now destruct d.
  - rewrite Hstem, occurs_app, Hxnl. now apply digits_exclude.
Qed.

Lemma scan_index_of_numbered_name_witness :
  FormatTIFFgeneric.scan_index "xtal_2_scan0023.tif" = 23.
Proof.
  exact (proj2 (scan_index_of_numbered_name "xtal_2" "scan" "0023" "tif"
                  eq_refl eq_refl eq_refl eq_refl eq_refl eq_refl
                  ltac:(discriminate) eq_refl)).
Defined.

(** ** Errors and output of the base predicate *)



(** ** Beam centres of the detector stubs *)

(** X15: the beam centre of every detector stub has two coordinates,
    each (pixel size x image size) / 2 computed in binary64.  For five
    stubs that is the float of the decimal one expects -- 14.08, 14.19,
    13.312, 14.135, 4.096 -- and for UED the first coordinate is 39.0 but
    the second is the float just below 40.2, because 0.06 x 1340 already
    rounds down. *)
Theorem detector_beam_centres :
  (forall p : profile,
     beam_centre (detector_of p)
     = [fdiv (fmul (fst (pixel_size (detector_of p)))
                   (float_of_Z (fst (image_size (detector_of p)))))
             (float_of_Z 2);
        fdiv (fmul (snd (pixel_size (detector_of p)))
                   (float_of_Z (snd (image_size (detector_of p)))))
             (float_of_Z 2)])
  /\ map (fun p => beam_centre (detector_of p))
       [Merlin; ASI; FEI_Tecnai_G2; Medipix; UED_BNL]
     = [[float_lit 1408 2; float_lit 1408 2];
        [float_lit 1419 2; float_lit 1419 2];
        [float_lit 13312 3; float_lit 13312 3];
        [float_lit 14135 3; float_lit 14135 3];
        [float_lit 4096 3; float_lit 4096 3]]
  /\ beam_centre FormatTIFF_UED._detector
     = [float_lit 390 1; SFpred prec emax (float_lit 402 1)]
  /\ SFpred prec emax (float_lit 402 1) <> float_lit 402 1.
Proof.
  split; [intros p; now destruct p|].
  split; [vm_compute; reflexivity|].
  split; [vm_compute; reflexivity|].
  vm_compute. discriminate.
Qed.
